(** * ipv6-ddns-cloudflare: the address prober, the record client and the
      debounce state machine of [main.go], embedded and verified.

    The embedding follows [main.go] function by function.  Calls into Go's
    standard library ([net], [net/http], [time], [yaml]) are the boundary of
    the program: their results are inputs of the model ([IfaceLookup],
    [HttpOutcome], [ConfigFile]) and their effects are recorded in a trace.

    Time is not modelled: a scheduled timer may fire at any moment, and a
    poll may happen at any moment.  There are two readings of the process.
    In [step] and [run] a poll and the function run by a timer are each
    handled to their end before the next event: the serialised reading, on
    which the statements about one handler and about serial scenarios rest.
    [main.go] takes no lock, and the function run by a timer waits for the
    provider while the main goroutine goes on polling: [istep] and [irun] cut
    the callback at that wait, and [stabilityCallback_split] shows that
    the two halves, run one after the other, are the callback of [step]. *)

From Stdlib Require Import ZArith NArith Lia Ascii String DecimalString.

From Stdlib.Strings Require Import Byte.

From stdpp Require Import base list strings.

Local Open Scope string_scope.

(** ** Go's [net.IP]: a byte slice, and the classification methods used by
       [getPublicIPv6]. *)
Module IP.

Definition t := list byte.

Definition IPv4len : nat := 4.
Definition IPv6len : nat := 16.

Definition v4InV6Prefix : t :=
  [x00; x00; x00; x00; x00; x00; x00; x00; x00; x00; xff; xff].

Definition IPv4 (a b c d : byte) : t := (v4InV6Prefix ++ [a; b; c; d])%list.

Definition IPv4bcast : t := IPv4 xff xff xff xff.
Definition IPv4zero : t := IPv4 x00 x00 x00 x00.
Definition IPv6unspecified : t := replicate 16 x00.
Definition IPv6loopback : t := (replicate 15 x00 ++ [x01])%list.

(** [bytealg.Equal] *)
Fixpoint bytes_eqb (a b : t) : bool :=
  match a, b with
  | [], [] => true
  | x :: a', y :: b' => Byte.eqb x y && bytes_eqb a' b'
  | _, _ => false
  end.

(** [ip[i]] for an index known to be in range. *)
Definition at_ (ip : t) (i : nat) : byte := nth i ip x00.

Definition isZeros (p : t) : bool := forallb (Byte.eqb x00) p.

(** [ip.To4()]: [None] is Go's nil result. *)
Definition To4 (ip : t) : option t :=
  if Nat.eqb (length ip) IPv4len then Some ip
  else if Nat.eqb (length ip) IPv6len
          && isZeros (take 10 ip)
          && Byte.eqb (at_ ip 10) xff
          && Byte.eqb (at_ ip 11) xff
       then Some (drop 12 ip)
       else None.

(** [ip.Equal(x)]: an IPv4 address and its 16-byte form are equal. *)
Definition Equal (ip x : t) : bool :=
  if Nat.eqb (length ip) (length x) then bytes_eqb ip x
  else if Nat.eqb (length ip) IPv4len && Nat.eqb (length x) IPv6len
       then bytes_eqb (take 12 x) v4InV6Prefix && bytes_eqb ip (drop 12 x)
  else if Nat.eqb (length ip) IPv6len && Nat.eqb (length x) IPv4len
       then bytes_eqb (take 12 ip) v4InV6Prefix && bytes_eqb (drop 12 ip) x
  else false.

Definition IsUnspecified (ip : t) : bool :=
  Equal ip IPv4zero || Equal ip IPv6unspecified.

Definition IsLoopback (ip : t) : bool :=
  match To4 ip with
  | Some ip4 => Byte.eqb (at_ ip4 0) x7f
  | None => Equal ip IPv6loopback
  end.

Definition IsMulticast (ip : t) : bool :=
  match To4 ip with
  | Some ip4 => N.eqb (N.land (Byte.to_N (at_ ip4 0)) 0xf0) 0xe0
  | None => Nat.eqb (length ip) IPv6len && Byte.eqb (at_ ip 0) xff
  end.

Definition IsLinkLocalUnicast (ip : t) : bool :=
  match To4 ip with
  | Some ip4 => Byte.eqb (at_ ip4 0) xa9 && Byte.eqb (at_ ip4 1) xfe
  | None =>
      Nat.eqb (length ip) IPv6len
      && Byte.eqb (at_ ip 0) xfe
      && N.eqb (N.land (Byte.to_N (at_ ip 1)) 0xc0) 0x80
  end.

Definition IsGlobalUnicast (ip : t) : bool :=
  (Nat.eqb (length ip) IPv4len || Nat.eqb (length ip) IPv6len)
  && negb (Equal ip IPv4bcast)
  && negb (IsUnspecified ip)
  && negb (IsLoopback ip)
  && negb (IsMulticast ip)
  && negb (IsLinkLocalUnicast ip).

(** *** [ip.String()] *)

Definition hexDigit (n : N) : ascii :=
  nth (N.to_nat n) (list_ascii_of_string "0123456789abcdef") "0"%char.

(** Lower-case hexadecimal without leading zeros, at least one digit. *)
Definition appendHex (v : N) : string :=
  let d3 := N.shiftr v 12 in
  let d2 := N.land (N.shiftr v 8) 0xf in
  let d1 := N.land (N.shiftr v 4) 0xf in
  let d0 := N.land v 0xf in
  let s0 := String (hexDigit d0) "" in
  let s1 := String (hexDigit d1) s0 in
  let s2 := String (hexDigit d2) s1 in
  let s3 := String (hexDigit d3) s2 in
  if negb (N.eqb d3 0) then s3
  else if negb (N.eqb d2 0) then s2
  else if negb (N.eqb d1 0) then s1
  else s0.

Definition hexString (b : t) : string :=
  String.concat ""
    (map (fun x => String (hexDigit (N.shiftr (Byte.to_N x) 4))
                     (String (hexDigit (N.land (Byte.to_N x) 0xf)) "")) b).

Definition decimal (b : byte) : string :=
  NilEmpty.string_of_uint (N.to_uint (Byte.to_N b)).

(** The [i]-th 16-bit group of a 16-byte address. *)
Definition v6u16 (ip : t) (i : nat) : N :=
  N.lor (N.shiftl (Byte.to_N (at_ ip (2 * i))) 8) (Byte.to_N (at_ ip (2 * i + 1))).

(** Number of consecutive zero groups from group [i] on. *)
Fixpoint zeroRun (ip : t) (i fuel : nat) : nat :=
  match fuel with
  | O => 0
  | S fuel' =>
      if Nat.ltb i 8 && N.eqb (v6u16 ip i) 0
      then S (zeroRun ip (S i) fuel') else 0
  end.

(** The leftmost longest run of at least two zero groups, as
    [(zeroStart, zeroEnd)]; [None] when there is none. *)
Definition longestZeroRun (ip : t) : option (nat * nat) :=
  foldl (fun best i =>
           let l := zeroRun ip i 8 in
           let cur := match best with Some (s, e) => e - s | None => 0 end in
           if Nat.leb 2 l && Nat.ltb cur l then Some (i, i + l) else best)
        None (seq 0 8).

Fixpoint printGroups (ip : t) (z : option (nat * nat)) (i fuel : nat) : string :=
  match fuel with
  | O => ""
  | S fuel' =>
      if Nat.leb 8 i then ""
      else
        match z with
        | Some (zs, ze) =>
            if Nat.eqb i zs then
              "::" ++ (if Nat.leb 8 ze then ""
                       else appendHex (v6u16 ip ze) ++ printGroups ip z (S ze) fuel')
            else (if Nat.ltb 0 i then ":" else "")
                   ++ appendHex (v6u16 ip i) ++ printGroups ip z (S i) fuel'
        | None =>
            (if Nat.ltb 0 i then ":" else "")
              ++ appendHex (v6u16 ip i) ++ printGroups ip z (S i) fuel'
        end
  end.

Definition String_ (ip : t) : string :=
  if Nat.eqb (length ip) 0 then "<nil>"
  else if negb (Nat.eqb (length ip) IPv4len) && negb (Nat.eqb (length ip) IPv6len)
       then "?" ++ hexString ip
  else match To4 ip with
       | Some p4 =>
           decimal (at_ p4 0) ++ "." ++ decimal (at_ p4 1) ++ "."
             ++ decimal (at_ p4 2) ++ "." ++ decimal (at_ p4 3)
       | None => printGroups ip (longestZeroRun ip) 0 9
       end.

End IP.

(** ** Data model: the structs of [main.go]. *)

Record CloudFlareConfig := {
  APIToken : string;
  ZoneID : string;
  RecordName : string;
  TTL : Z;
  Proxied : bool
}.

Record Config := {
  Interface : string;
  PollInterval : Z;
  StabilityDelay : Z;
  CloudFlare : CloudFlareConfig
}.

Module DNSRecord.
Record t := {
  ID : string;
  Type_ : string;
  Name : string;
  Content : string;
  TTL : Z;
  Proxied : bool
}.
End DNSRecord.

Record CFError := { Code : Z; Message : string }.

(** [stabilityTimer] is a pointer: [None] is nil, [Some t] points to the
    timer object number [t] of the runtime. *)
Record DDNSService := {
  config : Config;
  lastKnownIP : string;
  pendingIP : string;
  stabilityTimer : option nat;
  recordID : string
}.

(** ** The boundary: what the operating system and the network answer. *)

(** A [net.Addr] returned by [iface.Addrs()]: a [*net.IPNet] or some other
    implementation of the interface. *)
Inductive Addr :=
| IPNet (ip : IP.t) (mask : list byte)
| OtherAddr.

(** The answer to [net.InterfaceByName] followed by [iface.Addrs()]. *)
Inductive IfaceLookup :=
| NoSuchInterface
| AddrsFail
| Addrs (addrs : list Addr).

(** How one HTTP exchange ends; [R] is the type of the decoded [result]. *)
Inductive HttpOutcome (R : Type) :=
| NewRequestError
| DoError
| ReadError
| UnmarshalError
| Response (success : bool) (errors : list CFError) (result : R).
Arguments NewRequestError {R}.
Arguments DoError {R}.
Arguments ReadError {R}.
Arguments UnmarshalError {R}.
Arguments Response {R} success errors result.

(** The errors the program builds, one constructor per [fmt.Errorf] or
    passed-through library error. *)
Inductive Error :=
| ErrInterfaceNotFound (iface : string)
| ErrGettingAddresses (iface : string)
| ErrNoPublicIPv6 (iface : string)
| ErrNewRequest
| ErrAPIRequestFailed
| ErrReadingResponse
| ErrParsingResponse
| ErrCloudFlareAPIErrors (errors : list CFError)
| ErrCloudFlareAPI (messages : string)
| ErrReadingConfigFile
| ErrParsingConfigFile
| ErrRequired (field : string).

Inductive result (A : Type) :=
| Ok (a : A)
| Err (e : Error).
Arguments Ok {A} a.
Arguments Err {A} e.

(** ** The trace: log lines, HTTP requests handed to [httpClient.Do], and
    the entries into [updateDNS]. *)

Inductive LogLine :=
| FatalLoadConfig (e : Error)
| FatalInvalidConfig (e : Error)
| FatalFetchRecord (e : Error)
| LogStarting (iface name : string)
| LogShuttingDown
| LogErrorGetting (e : Error)
| LogReverted (ip : string)
| LogDetected (ip : string)
| LogDetectedNew (ip was : string)
| LogWaiting (seconds : Z)
| LogErrorVerifying (e : Error)
| LogChangedDuringWindow
| LogStable (seconds : Z)
| LogFailedUpdate (e : Error)
| LogUpdated (ip : string)
| LogRecordMissing (name : string)
| LogFoundExisting (name ip : string).

Module Body.
(** The JSON object built by [updateDNS]. *)
Record t := {
  type_ : string;
  name : string;
  content : string;
  ttl : Z;
  proxied : bool
}.
End Body.

Record Request := {
  Method : string;
  URL : string;
  Authorization : string;
  ContentType : string;
  ReqBody : option Body.t
}.

Inductive Effect :=
| Log (l : LogLine)
| HttpDo (req : Request)
| UpdateDNSCalled (ip : string).

(** ** The runtime: timers created by [time.AfterFunc]. *)

Inductive TimerStatus := Scheduled | Stopped | Fired.

Record Timer := { duration : Z; status : TimerStatus }.

Record World := {
  svc : DDNSService;
  timers : list Timer;
  trace : list Effect
}.

(** Go's [int64] arithmetic wraps around. *)
Definition wrap64 (z : Z) : Z := ((z + 2 ^ 63) mod 2 ^ 64 - 2 ^ 63)%Z.

Definition Second : Z := 1000000000%Z.

(** [time.Duration(n) * time.Second] *)
Definition seconds (n : Z) : Z := wrap64 (wrap64 n * Second).

(** ** A state monad for the methods of [*DDNSService]; [Panic] is a Go
    run-time panic, which ends the process. *)

Inductive Res (A : Type) :=
| Val (a : A) (w : World)
| Panic.
Arguments Val {A} a w.
Arguments Panic {A}.

Definition M (A : Type) : Type := World -> Res A.

#[global] Instance M_ret : MRet M := fun A a w => Val a w.

#[global] Instance M_bind : MBind M := fun A B f m w =>
  match m w with
  | Val a w' => f a w'
  | Panic => Panic
  end.

Definition panic {A} : M A := fun _ => Panic.

Definition getS : M DDNSService := fun w => Val (svc w) w.

Definition putS (s : DDNSService) : M unit := fun w =>
  Val tt {| svc := s; timers := timers w; trace := trace w |}.

Definition emit (e : Effect) : M unit := fun w =>
  Val tt {| svc := svc w; timers := timers w; trace := (trace w ++ [e])%list |}.

Definition logPrintf (l : LogLine) : M unit := emit (Log l).

Definition set_lastKnownIP (ip : string) : M unit :=
  s ← getS;
  putS {| config := config s; lastKnownIP := ip; pendingIP := pendingIP s;
          stabilityTimer := stabilityTimer s; recordID := recordID s |}.

Definition set_pendingIP (ip : string) : M unit :=
  s ← getS;
  putS {| config := config s; lastKnownIP := lastKnownIP s; pendingIP := ip;
          stabilityTimer := stabilityTimer s; recordID := recordID s |}.

Definition set_stabilityTimer (t : option nat) : M unit :=
  s ← getS;
  putS {| config := config s; lastKnownIP := lastKnownIP s; pendingIP := pendingIP s;
          stabilityTimer := t; recordID := recordID s |}.

Definition set_recordID (id : string) : M unit :=
  s ← getS;
  putS {| config := config s; lastKnownIP := lastKnownIP s; pendingIP := pendingIP s;
          stabilityTimer := stabilityTimer s; recordID := id |}.

(** [t.Stop()]: a timer that has fired or was stopped stays as it is. *)
Definition stopTimer (tm : Timer) : Timer :=
  match status tm with
  | Scheduled => {| duration := duration tm; status := Stopped |}
  | _ => tm
  end.

Definition stopAt (t : nat) (l : list Timer) : list Timer :=
  match l !! t with
  | Some tm => <[t := stopTimer tm]> l
  | None => l
  end.

Definition timerStop (t : nat) : M unit := fun w =>
  Val tt {| svc := svc w; timers := stopAt t (timers w); trace := trace w |}.

(** [time.AfterFunc(d, f)]: a fresh scheduled timer; the function [f] is
    always the closure of [startStabilityTimer], run by [TimerFires]. *)
Definition afterFunc (d : Z) : M nat := fun w =>
  Val (length (timers w))
      {| svc := svc w;
         timers := (timers w ++ [{| duration := d; status := Scheduled |}])%list;
         trace := trace w |}.

(** ** Configuration: [loadConfig] and [validateConfig]. *)

(** The keys of the YAML document; [None] is a key that is not supplied. *)
Record YamlCloudFlare := {
  y_api_token : option string;
  y_zone_id : option string;
  y_record_name : option string;
  y_ttl : option Z;
  y_proxied : option bool
}.

Record YamlConfig := {
  y_interface : option string;
  y_poll_interval : option Z;
  y_stability_delay : option Z;
  y_cloudflare : option YamlCloudFlare
}.

(** What [os.ReadFile] and the YAML parser make of the configuration file. *)
Inductive ConfigFile :=
| Unreadable
| Malformed
| Document (y : YamlConfig).

(** [var config Config]: every field has Go's zero value. *)
Definition zeroCloudFlareConfig : CloudFlareConfig :=
  {| APIToken := ""; ZoneID := ""; RecordName := ""; TTL := 0; Proxied := false |}.

Definition zeroConfig : Config :=
  {| Interface := ""; PollInterval := 0; StabilityDelay := 0;
     CloudFlare := zeroCloudFlareConfig |}.

(** [yaml.Unmarshal(data, &config)]: a supplied key overwrites the field, a
    key that is not supplied leaves it as it was. *)
Definition unmarshalCloudFlare (y : YamlCloudFlare) (c : CloudFlareConfig) : CloudFlareConfig :=
  {| APIToken := default (APIToken c) (y_api_token y);
     ZoneID := default (ZoneID c) (y_zone_id y);
     RecordName := default (RecordName c) (y_record_name y);
     TTL := default (TTL c) (y_ttl y);
     Proxied := default (Proxied c) (y_proxied y) |}.

Definition unmarshal (y : YamlConfig) (c : Config) : Config :=
  {| Interface := default (Interface c) (y_interface y);
     PollInterval := default (PollInterval c) (y_poll_interval y);
     StabilityDelay := default (StabilityDelay c) (y_stability_delay y);
     CloudFlare := match y_cloudflare y with
                   | Some yc => unmarshalCloudFlare yc (CloudFlare c)
                   | None => CloudFlare c
                   end |}.

Definition loadConfig (file : ConfigFile) : result Config :=
  match file with
  | Unreadable => Err ErrReadingConfigFile
  | Malformed => Err ErrParsingConfigFile
  | Document y =>
      let config := unmarshal y zeroConfig in
      (* Set defaults *)
      let config :=
        if Z.eqb (PollInterval config) 0
        then {| Interface := Interface config; PollInterval := 30;
                StabilityDelay := StabilityDelay config; CloudFlare := CloudFlare config |}
        else config in
      let config :=
        if Z.eqb (StabilityDelay config) 0
        then {| Interface := Interface config; PollInterval := PollInterval config;
                StabilityDelay := 5; CloudFlare := CloudFlare config |}
        else config in
      let config :=
        if Z.eqb (TTL (CloudFlare config)) 0
        then {| Interface := Interface config; PollInterval := PollInterval config;
                StabilityDelay := StabilityDelay config;
                CloudFlare := {| APIToken := APIToken (CloudFlare config);
                                 ZoneID := ZoneID (CloudFlare config);
                                 RecordName := RecordName (CloudFlare config);
                                 TTL := 1;
                                 Proxied := Proxied (CloudFlare config) |} |}
        else config in
      Ok config
  end.

(** [None] is Go's nil error. *)
Definition validateConfig (config : Config) : option Error :=
  if String.eqb (Interface config) "" then Some (ErrRequired "interface")
  else if String.eqb (APIToken (CloudFlare config)) "" then Some (ErrRequired "cloudflare.api_token")
  else if String.eqb (ZoneID (CloudFlare config)) "" then Some (ErrRequired "cloudflare.zone_id")
  else if String.eqb (RecordName (CloudFlare config)) "" then Some (ErrRequired "cloudflare.record_name")
  else None.

(** ** The address prober: [getPublicIPv6]. *)

Inductive Scan :=
| Return (ip : string)
| Exhausted
| IndexOutOfRange.

(** The [for _, addr := range addrs] loop. *)
Fixpoint rangeAddrs (addrs : list Addr) : Scan :=
  match addrs with
  | [] => Exhausted
  | OtherAddr :: rest => rangeAddrs rest
  | IPNet ip _ :: rest =>
      (* Must be IPv6 *)
      if bool_decide (is_Some (IP.To4 ip)) then rangeAddrs rest
      (* Skip link-local (fe80::/10) *)
      else if IP.IsLinkLocalUnicast ip then rangeAddrs rest
      (* Skip loopback *)
      else if IP.IsLoopback ip then rangeAddrs rest
      else
        (* Skip ULA (fc00::/7); [ip[0]] panics on an empty slice *)
        match ip with
        | [] => IndexOutOfRange
        | ip0 :: _ =>
            if Byte.eqb ip0 xfc || Byte.eqb ip0 xfd then rangeAddrs rest
            (* This should be a global unicast address *)
            else if IP.IsGlobalUnicast ip then Return (IP.String_ ip)
            else rangeAddrs rest
        end
  end.

Definition getPublicIPv6 (look : IfaceLookup) : M (result string) :=
  s ← getS;
  match look with
  | NoSuchInterface => mret (Err (ErrInterfaceNotFound (Interface (config s))))
  | AddrsFail => mret (Err (ErrGettingAddresses (Interface (config s))))
  | Addrs addrs =>
      match rangeAddrs addrs with
      | Return ip => mret (Ok ip)
      | Exhausted => mret (Err (ErrNoPublicIPv6 (Interface (config s))))
      | IndexOutOfRange => panic
      end
  end.

(** ** The debounce state machine. *)

Definition cancelPendingUpdate : M unit :=
  s ← getS;
  match stabilityTimer s with
  | Some t => timerStop t;; set_stabilityTimer None
  | None => mret tt
  end;;
  set_pendingIP "".

(** [startStabilityTimer] up to the creation of the timer; the closure
    handed to [time.AfterFunc] is [stabilityCallback] below. *)
Definition startStabilityTimer : M unit :=
  s ← getS;
  (* Cancel any existing timer *)
  match stabilityTimer s with
  | Some t => timerStop t
  | None => mret tt
  end;;
  logPrintf (LogWaiting (StabilityDelay (config s)));;
  t ← afterFunc (seconds (StabilityDelay (config s)));
  set_stabilityTimer (Some t).

Definition apiBase : string := "https://api.cloudflare.com/client/v4/zones/".

Definition fetchRecordID (o : HttpOutcome (list DNSRecord.t)) : M (option Error) :=
  s ← getS;
  let url := apiBase +:+ ZoneID (CloudFlare (config s))
             +:+ "/dns_records?type=AAAA&name=" +:+ RecordName (CloudFlare (config s)) in
  match o with
  | NewRequestError => mret (Some ErrNewRequest)
  | _ =>
      emit (HttpDo {| Method := "GET"; URL := url;
                      Authorization := "Bearer " +:+ APIToken (CloudFlare (config s));
                      ContentType := "application/json";
                      ReqBody := None |});;
      match o with
      | NewRequestError => mret (Some ErrNewRequest)
      | DoError => mret (Some ErrAPIRequestFailed)
      | ReadError => mret (Some ErrReadingResponse)
      | UnmarshalError => mret (Some ErrParsingResponse)
      | Response success errors result =>
          if negb success then mret (Some (ErrCloudFlareAPIErrors errors))
          else
            match result with
            | [] =>
                (* Record doesn't exist, we'll create it on first update *)
                logPrintf (LogRecordMissing (RecordName (CloudFlare (config s))));;
                mret None
            | r0 :: _ =>
                set_recordID (DNSRecord.ID r0);;
                set_lastKnownIP (DNSRecord.Content r0);;
                logPrintf (LogFoundExisting (RecordName (CloudFlare (config s)))
                                            (DNSRecord.Content r0));;
                mret None
            end
      end
  end.

(** [json.Marshal] cannot fail on a map of strings, an int and a bool, so
    the first way out of [updateDNS] is [http.NewRequest]. *)
Definition updateDNS (ip : string) (o : HttpOutcome DNSRecord.t) : M (option Error) :=
  emit (UpdateDNSCalled ip);;
  s ← getS;
  let record := {| Body.type_ := "AAAA";
                   Body.name := RecordName (CloudFlare (config s));
                   Body.content := ip;
                   Body.ttl := TTL (CloudFlare (config s));
                   Body.proxied := Proxied (CloudFlare (config s)) |} in
  let '(url, method) :=
    if String.eqb (recordID s) ""
    then (* Create new record *)
      (apiBase +:+ ZoneID (CloudFlare (config s)) +:+ "/dns_records", "POST")
    else (* Update existing record *)
      (apiBase +:+ ZoneID (CloudFlare (config s)) +:+ "/dns_records/" +:+ recordID s, "PUT") in
  match o with
  | NewRequestError => mret (Some ErrNewRequest)
  | _ =>
      emit (HttpDo {| Method := method; URL := url;
                      Authorization := "Bearer " +:+ APIToken (CloudFlare (config s));
                      ContentType := "application/json";
                      ReqBody := Some record |});;
      match o with
      | NewRequestError => mret (Some ErrNewRequest)
      | DoError => mret (Some ErrAPIRequestFailed)
      | ReadError => mret (Some ErrReadingResponse)
      | UnmarshalError => mret (Some ErrParsingResponse)
      | Response success errors result =>
          if negb success
          then mret (Some (ErrCloudFlareAPI (String.concat ", " (map Message errors))))
          else
            (* Store the record ID if this was a create *)
            (if String.eqb (recordID s) "" then set_recordID (DNSRecord.ID result)
             else mret tt);;
            mret None
      end
  end.

(** The function handed to [time.AfterFunc]: it runs when the timer fires. *)
Definition stabilityCallback (look : IfaceLookup) (o : HttpOutcome DNSRecord.t) : M unit :=
  (* Verify the address is still the same *)
  r ← getPublicIPv6 look;
  match r with
  | Err e =>
      logPrintf (LogErrorVerifying e);;
      set_pendingIP ""
  | Ok currentIP =>
      s ← getS;
      if negb (String.eqb currentIP (pendingIP s)) then
        logPrintf LogChangedDuringWindow;;
        set_pendingIP currentIP;;
        startStabilityTimer
      else
        (* Address is stable, update DNS *)
        logPrintf (LogStable (StabilityDelay (config s)));;
        err ← updateDNS currentIP o;
        match err with
        | Some e => logPrintf (LogFailedUpdate e)
        | None => logPrintf (LogUpdated currentIP);; set_lastKnownIP currentIP
        end;;
        set_pendingIP ""
  end.

Definition checkAndUpdate (look : IfaceLookup) : M unit :=
  r ← getPublicIPv6 look;
  match r with
  | Err e => logPrintf (LogErrorGetting e)
  | Ok currentIP =>
      s ← getS;
      (* No change from last known stable IP *)
      if String.eqb currentIP (lastKnownIP s) then
        (* If we had a pending change that reverted, cancel it *)
        if negb (String.eqb (pendingIP s) "") && negb (String.eqb (pendingIP s) currentIP)
        then logPrintf (LogReverted currentIP);; cancelPendingUpdate
        else mret tt
      (* New IP detected *)
      else if negb (String.eqb currentIP (pendingIP s)) then
        (if String.eqb (lastKnownIP s) "" then logPrintf (LogDetected currentIP)
         else logPrintf (LogDetectedNew currentIP (lastKnownIP s)));;
        set_pendingIP currentIP;;
        startStabilityTimer
      else mret tt
  end.

(** ** The process: [main], then one event at a time. *)

Inductive Proc :=
| Running (w : World)
| Exited (code : Z) (tr : list Effect)
| Panicked.

Definition newService (config : Config) : World :=
  {| svc := {| config := config; lastKnownIP := ""; pendingIP := "";
               stabilityTimer := None; recordID := "" |};
     timers := [];
     trace := [] |}.

(** [time.NewTicker(d)] panics on a non-positive interval. *)
Definition newTicker (d : Z) : M unit :=
  if Z.leb d 0 then panic else mret tt.

Definition proc_of (r : Res unit) : Proc :=
  match r with
  | Val _ w => Running w
  | Panic => Panicked
  end.

(** [main] up to and including the initial check.  [fetch] is the answer to
    the startup lookup, [first] what the interface shows at the initial
    check. *)
Definition main (file : ConfigFile) (fetch : HttpOutcome (list DNSRecord.t))
    (first : IfaceLookup) : Proc :=
  match loadConfig file with
  | Err e => Exited 1 [Log (FatalLoadConfig e)]
  | Ok config =>
      match validateConfig config with
      | Some e => Exited 1 [Log (FatalInvalidConfig e)]
      | None =>
          (* Get the current DNS record ID *)
          match fetchRecordID fetch (newService config) with
          | Panic => Panicked
          | Val (Some e) w => Exited 1 (trace w ++ [Log (FatalFetchRecord e)])
          | Val None w =>
              proc_of
                ((logPrintf (LogStarting (Interface config) (RecordName (CloudFlare config)));;
                  newTicker (seconds (PollInterval config));;
                  (* Initial check *)
                  checkAndUpdate first) w)
          end
      end
  end.

(** The events of the running process: the ticker fires, a stability timer
    fires, a termination signal arrives.  Each carries what the outside
    world answers while it is handled. *)
Inductive Event :=
| Tick (look : IfaceLookup)
| TimerFires (t : nat) (look : IfaceLookup) (o : HttpOutcome DNSRecord.t)
| Signal.

Definition expire (t : nat) (w : World) : World :=
  {| svc := svc w;
     timers := alter (fun tm => {| duration := duration tm; status := Fired |}) t (timers w);
     trace := trace w |}.

Definition shutdown : M unit :=
  logPrintf LogShuttingDown;;
  s ← getS;
  match stabilityTimer s with
  | Some t => timerStop t
  | None => mret tt
  end.

(** One event, handled to its end; [None] when the event cannot happen in
    [w] (a timer fires only while it is scheduled). *)
Definition step (w : World) (ev : Event) : option Proc :=
  match ev with
  | Tick look => Some (proc_of (checkAndUpdate look w))
  | TimerFires t look o =>
      match timers w !! t with
      | Some {| status := Scheduled |} =>
          Some (proc_of (stabilityCallback look o (expire t w)))
      | _ => None
      end
  | Signal =>
      match shutdown w with
      | Val _ w' => Some (Exited 0 (trace w'))
      | Panic => Some Panicked
      end
  end.

Fixpoint run (p : Proc) (evs : list Event) : option Proc :=
  match evs with
  | [] => Some p
  | ev :: evs' =>
      match p with
      | Running w =>
          match step w ev with
          | Some p' => run p' evs'
          | None => None
          end
      | _ => None
      end
  end.

(** ** The process with a callback that waits for the provider

    [time.AfterFunc] runs the callback in a goroutine of its own and
    [main.go] takes no lock: while the callback waits in [httpClient.Do] for
    the provider's answer, the main goroutine goes on polling and other
    timers may fire.  Here the callback is cut at that call: [beginCallback]
    runs it up to the request, [endCallback] from the answer on. *)

(** [updateDNS] up to [httpClient.Do]: [true] when the request was handed
    over, [false] when [http.NewRequest] returned an error. *)
Definition updateDNS_request (ip : string) (newRequestFails : bool) : M bool :=
  emit (UpdateDNSCalled ip);;
  s ← getS;
  let record := {| Body.type_ := "AAAA";
                   Body.name := RecordName (CloudFlare (config s));
                   Body.content := ip;
                   Body.ttl := TTL (CloudFlare (config s));
                   Body.proxied := Proxied (CloudFlare (config s)) |} in
  let '(url, method) :=
    if String.eqb (recordID s) ""
    then (apiBase +:+ ZoneID (CloudFlare (config s)) +:+ "/dns_records", "POST")
    else (apiBase +:+ ZoneID (CloudFlare (config s)) +:+ "/dns_records/" +:+ recordID s, "PUT") in
  if newRequestFails then mret false
  else
    emit (HttpDo {| Method := method; URL := url;
                    Authorization := "Bearer " +:+ APIToken (CloudFlare (config s));
                    ContentType := "application/json";
                    ReqBody := Some record |});;
    mret true.

(** [updateDNS] from the return of [httpClient.Do] on; [s.recordID] is read
    again at this point. *)
Definition updateDNS_response (o : HttpOutcome DNSRecord.t) : M (option Error) :=
  match o with
  | NewRequestError => mret (Some ErrNewRequest)
  | DoError => mret (Some ErrAPIRequestFailed)
  | ReadError => mret (Some ErrReadingResponse)
  | UnmarshalError => mret (Some ErrParsingResponse)
  | Response success errors result =>
      if negb success
      then mret (Some (ErrCloudFlareAPI (String.concat ", " (map Message errors))))
      else
        s ← getS;
        (* Store the record ID if this was a create *)
        (if String.eqb (recordID s) "" then set_recordID (DNSRecord.ID result)
         else mret tt);;
        mret None
  end.

(** The callback up to the request: [Some ip] when it now waits for the
    answer to the update of [ip], [None] when it has run to its end. *)
Definition beginCallback (look : IfaceLookup) (newRequestFails : bool) : M (option string) :=
  r ← getPublicIPv6 look;
  match r with
  | Err e =>
      logPrintf (LogErrorVerifying e);;
      set_pendingIP "";;
      mret None
  | Ok currentIP =>
      s ← getS;
      if negb (String.eqb currentIP (pendingIP s)) then
        logPrintf LogChangedDuringWindow;;
        set_pendingIP currentIP;;
        startStabilityTimer;;
        mret None
      else
        logPrintf (LogStable (StabilityDelay (config s)));;
        sent ← updateDNS_request currentIP newRequestFails;
        if sent : bool then mret (Some currentIP)
        else
          logPrintf (LogFailedUpdate ErrNewRequest);;
          set_pendingIP "";;
          mret None
  end.

(** The callback from the answer on; [currentIP] is its local variable. *)
Definition endCallback (currentIP : string) (o : HttpOutcome DNSRecord.t) : M unit :=
  err ← updateDNS_response o;
  match err with
  | Some e => logPrintf (LogFailedUpdate e)
  | None => logPrintf (LogUpdated currentIP);; set_lastKnownIP currentIP
  end;;
  set_pendingIP "".




Definition answered (o : HttpOutcome DNSRecord.t) : bool :=
  match o with
  | NewRequestError => false
  | _ => true
  end.






(** * The notions the theorems are stated with *)

(** ** The prober *)

(** The filters in the words of the specification. *)

(** An IPv6 address, as opposed to an IPv4 one: Go holds an IPv4 address in
    four bytes or in sixteen bytes behind the prefix ::ffff:0:0/96. *)
Definition isIPv6 (ip : IP.t) : Prop :=
  length ip <> 4 /\ ~ (length ip = 16 /\ take 12 ip = IP.v4InV6Prefix).

(** fe80::/10: sixteen bytes, the first ten bits are 1111 1110 10. *)
Definition linkLocal (ip : IP.t) : Prop :=
  length ip = 16 /\ IP.at_ ip 0 = xfe
  /\ (0x80 <= Byte.to_N (IP.at_ ip 1) < 0xc0)%N.

(** ::1 *)
Definition loopback (ip : IP.t) : Prop := ip = IP.IPv6loopback.

(** fc00::/7: the first octet is 0xfc or 0xfd. *)
Definition uniqueLocal (ip : IP.t) : Prop :=
  exists ip0 rest, ip = ip0 :: rest /\ (ip0 = xfc \/ ip0 = xfd).

Definition globalUnicast (ip : IP.t) : Prop := IP.IsGlobalUnicast ip = true.

Definition qualifies (a : Addr) : Prop :=
  match a with
  | IPNet ip _ =>
      isIPv6 ip /\ ~ linkLocal ip /\ ~ loopback ip /\ ~ uniqueLocal ip
      /\ globalUnicast ip
  | OtherAddr => False
  end.

(** No [*net.IPNet] of the list holds an empty address. *)
Definition nonemptyIPs (addrs : list Addr) : bool :=
  forallb (fun a => match a with
                    | IPNet [] _ => false
                    | _ => true
                    end) addrs.

(** ** The state machine *)

Definition scheduled (l : list Timer) (t : nat) : bool :=
  match l !! t with
  | Some {| status := Scheduled |} => true
  | _ => false
  end.

(** Timer [t] is waiting to fire. *)
Definition isScheduled (w : World) (t : nat) : bool := scheduled (timers w) t.

(** The probe of the interface, as [look] shows it, returns [ip]. *)
Definition probes (look : IfaceLookup) (ip : string) : Prop :=
  forall w, getPublicIPv6 look w = Val (Ok ip) w.

(** *** The worlds the operations lead to *)

Definition stopPtr (p : option nat) (l : list Timer) : list Timer :=
  match p with
  | Some t => stopAt t l
  | None => l
  end.

Definition logged (l : LogLine) (w : World) : World :=
  {| svc := svc w; timers := timers w; trace := (trace w ++ [Log l])%list |}.

Definition withPending (ip : string) (w : World) : World :=
  {| svc := {| config := config (svc w); lastKnownIP := lastKnownIP (svc w);
               pendingIP := ip; stabilityTimer := stabilityTimer (svc w);
               recordID := recordID (svc w) |};
     timers := timers w; trace := trace w |}.

Definition withLastKnown (ip : string) (w : World) : World :=
  {| svc := {| config := config (svc w); lastKnownIP := ip;
               pendingIP := pendingIP (svc w); stabilityTimer := stabilityTimer (svc w);
               recordID := recordID (svc w) |};
     timers := timers w; trace := trace w |}.

Definition started (w : World) : World :=
  {| svc := {| config := config (svc w); lastKnownIP := lastKnownIP (svc w);
               pendingIP := pendingIP (svc w);
               stabilityTimer := Some (length (timers w));
               recordID := recordID (svc w) |};
     timers := (stopPtr (stabilityTimer (svc w)) (timers w)
                ++ [{| duration := seconds (StabilityDelay (config (svc w)));
                       status := Scheduled |}])%list;
     trace := (trace w ++ [Log (LogWaiting (StabilityDelay (config (svc w))))])%list |}.

Definition cancelled (w : World) : World :=
  {| svc := {| config := config (svc w); lastKnownIP := lastKnownIP (svc w);
               pendingIP := ""; stabilityTimer := None;
               recordID := recordID (svc w) |};
     timers := stopPtr (stabilityTimer (svc w)) (timers w);
     trace := trace w |}.

Definition succeeded {R : Type} (o : HttpOutcome R) : bool :=
  match o with
  | Response true _ _ => true
  | _ => false
  end.

(** The error [updateDNS] returns for each outcome of the exchange. *)
Definition updateError (o : HttpOutcome DNSRecord.t) : option Error :=
  match o with
  | NewRequestError => Some ErrNewRequest
  | DoError => Some ErrAPIRequestFailed
  | ReadError => Some ErrReadingResponse
  | UnmarshalError => Some ErrParsingResponse
  | Response success errors _ =>
      if success then None
      else Some (ErrCloudFlareAPI (String.concat ", " (map Message errors)))
  end.

(** The request [updateDNS] builds in service state [s]. *)
Definition requestOf (s : DDNSService) (ip : string) : Request :=
  {| Method := if String.eqb (recordID s) "" then "POST" else "PUT";
     URL := if String.eqb (recordID s) ""
            then apiBase +:+ ZoneID (CloudFlare (config s)) +:+ "/dns_records"
            else apiBase +:+ ZoneID (CloudFlare (config s)) +:+ "/dns_records/"
                 +:+ recordID s;
     Authorization := "Bearer " +:+ APIToken (CloudFlare (config s));
     ContentType := "application/json";
     ReqBody := Some {| Body.type_ := "AAAA";
                        Body.name := RecordName (CloudFlare (config s));
                        Body.content := ip;
                        Body.ttl := TTL (CloudFlare (config s));
                        Body.proxied := Proxied (CloudFlare (config s)) |} |}.

Definition updated (ip : string) (o : HttpOutcome DNSRecord.t) (w : World) : World :=
  {| svc := {| config := config (svc w); lastKnownIP := lastKnownIP (svc w);
               pendingIP := pendingIP (svc w); stabilityTimer := stabilityTimer (svc w);
               recordID := match o with
                           | Response true _ result =>
                               if String.eqb (recordID (svc w)) ""
                               then DNSRecord.ID result else recordID (svc w)
                           | _ => recordID (svc w)
                           end |};
     timers := timers w;
     trace := (trace w ++ UpdateDNSCalled ip ::
                 match o with
                 | NewRequestError => []
                 | _ => [HttpDo (requestOf (svc w) ip)]
                 end)%list |}.

(** What follows the call of [updateDNS] in the handler. *)
Definition settled (ip : string) (o : HttpOutcome DNSRecord.t) (w : World) : World :=
  withPending ""
    match updateError o with
    | Some e => logged (LogFailedUpdate e) w
    | None => withLastKnown ip (logged (LogUpdated ip) w)
    end.

(** *** The timer invariant *)

(** Only the timer [stabilityTimer] points to can be scheduled. *)
Definition onePointer (w : World) : Prop :=
  forall t, isScheduled w t = true -> stabilityTimer (svc w) = Some t.

(** At most the timer pointed to is scheduled, and an address is pending
    exactly when a timer is scheduled. *)
Definition timerInv (w : World) : Prop :=
  onePointer w
  /\ (pendingIP (svc w) <> "" <-> exists t, isScheduled w t = true).

Definition noneScheduled (w : World) : Prop :=
  forall t, isScheduled w t = false.

(** *** Startup *)

Definition fetchError (o : HttpOutcome (list DNSRecord.t)) : option Error :=
  match o with
  | NewRequestError => Some ErrNewRequest
  | DoError => Some ErrAPIRequestFailed
  | ReadError => Some ErrReadingResponse
  | UnmarshalError => Some ErrParsingResponse
  | Response success errors _ =>
      if success then None else Some (ErrCloudFlareAPIErrors errors)
  end.

(** The lookup request of [fetchRecordID]. *)
Definition lookupRequest (s : DDNSService) : Request :=
  {| Method := "GET";
     URL := apiBase +:+ ZoneID (CloudFlare (config s))
            +:+ "/dns_records?type=AAAA&name=" +:+ RecordName (CloudFlare (config s));
     Authorization := "Bearer " +:+ APIToken (CloudFlare (config s));
     ContentType := "application/json";
     ReqBody := None |}.

Definition fetched (o : HttpOutcome (list DNSRecord.t)) (w : World) : World :=
  {| svc := {| config := config (svc w);
               lastKnownIP := match o with
                              | Response true _ (r0 :: _) => DNSRecord.Content r0
                              | _ => lastKnownIP (svc w)
                              end;
               pendingIP := pendingIP (svc w);
               stabilityTimer := stabilityTimer (svc w);
               recordID := match o with
                           | Response true _ (r0 :: _) => DNSRecord.ID r0
                           | _ => recordID (svc w)
                           end |};
     timers := timers w;
     trace := (trace w ++
                 match o with
                 | NewRequestError => []
                 | Response true _ [] =>
                     [HttpDo (lookupRequest (svc w));
                      Log (LogRecordMissing (RecordName (CloudFlare (config (svc w)))))]
                 | Response true _ (r0 :: _) =>
                     [HttpDo (lookupRequest (svc w));
                      Log (LogFoundExisting (RecordName (CloudFlare (config (svc w))))
                                            (DNSRecord.Content r0))]
                 | _ => [HttpDo (lookupRequest (svc w))]
                 end)%list |}.

(** The world in which the initial check runs. *)
Definition booted (config : Config) (fetch : HttpOutcome (list DNSRecord.t)) : World :=
  logged (LogStarting (Interface config) (RecordName (CloudFlare config)))
    (fetched fetch (newService config)).

(** *** What a trace says about the DNS Record Client *)

(** The addresses [updateDNS] was called with, in order. *)
Definition upsertCalls (tr : list Effect) : list string :=
  omap (fun e => match e with UpdateDNSCalled ip => Some ip | _ => None end) tr.

(** The requests sent, in order. *)
Definition httpRequests (tr : list Effect) : list Request :=
  omap (fun e => match e with HttpDo req => Some req | _ => None end) tr.


Definition collectionURL (cfg : Config) : string :=
  apiBase +:+ ZoneID (CloudFlare cfg) +:+ "/dns_records".

(** ** Configuration *)

Definition suppliedTTL (y : YamlConfig) : option Z :=
  match y_cloudflare y with
  | Some yc => y_ttl yc
  | None => None
  end.

(** The accepted ranges of the specification. *)
Definition inRange (y : YamlConfig) : Prop :=
  (forall v, y_poll_interval y = Some v -> (1 <= v)%Z)
  /\ (forall v, y_stability_delay y = Some v -> (0 <= v)%Z)
  /\ (forall v, suppliedTTL y = Some v -> (1 <= v)%Z).

(** The supplied value, the default only when none is supplied. *)
Definition usesSupplied (y : YamlConfig) (cfg : Config) : Prop :=
  PollInterval cfg = default 30%Z (y_poll_interval y)
  /\ StabilityDelay cfg = default 5%Z (y_stability_delay y)
  /\ TTL (CloudFlare cfg) = default 1%Z (suppliedTTL y).

(** The supplied value unless it is zero, the default otherwise. *)
Definition nonzeroOr (d : Z) (supplied : option Z) : Z :=
  match supplied with
  | Some v => if Z.eqb v 0 then d else v
  | None => d
  end.

(** ** Example inputs *)

(** 2001:db8::1 and 2001:db8::2 *)
Definition addrA : IP.t :=
  [x20; x01; x0d; xb8; x00; x00; x00; x00; x00; x00; x00; x00; x00; x00; x00; x01].

Definition addrB : IP.t :=
  [x20; x01; x0d; xb8; x00; x00; x00; x00; x00; x00; x00; x00; x00; x00; x00; x02].

(** fe80::1 and fd00::1 *)
Definition addrLinkLocal : IP.t :=
  [xfe; x80; x00; x00; x00; x00; x00; x00; x00; x00; x00; x00; x00; x00; x00; x01].

Definition addrULA : IP.t :=
  [xfd; x00; x00; x00; x00; x00; x00; x00; x00; x00; x00; x00; x00; x00; x00; x01].

Definition mask64 : list byte :=
  [xff; xff; xff; xff; xff; xff; xff; xff; x00; x00; x00; x00; x00; x00; x00; x00].

(** An interface that holds an IPv4 address, ::1, a link-local, a
    unique-local and two global addresses. *)
Definition addrsA : list Addr :=
  [OtherAddr; IPNet (IP.IPv4 xc0 xa8 x01 x0a) mask64; IPNet IP.IPv6loopback mask64;
   IPNet addrLinkLocal mask64; IPNet addrULA mask64;
   IPNet addrA mask64; IPNet addrB mask64].

Definition lookA : IfaceLookup := Addrs addrsA.

Definition lookB : IfaceLookup := Addrs [IPNet addrLinkLocal mask64; IPNet addrB mask64].

Definition exampleYaml : YamlConfig :=
  {| y_interface := Some "eth0";
     y_poll_interval := Some 30%Z;
     y_stability_delay := None;
     y_cloudflare := Some {| y_api_token := Some "token"; y_zone_id := Some "zone1";
                             y_record_name := Some "home.example.com";
                             y_ttl := None; y_proxied := None |} |}.

Definition exampleConfig : Config :=
  {| Interface := "eth0"; PollInterval := 30; StabilityDelay := 5;
     CloudFlare := {| APIToken := "token"; ZoneID := "zone1";
                      RecordName := "home.example.com"; TTL := 1; Proxied := false |} |}.

(** The same document with [stability_delay: 0]. *)
Definition zeroDelayYaml : YamlConfig :=
  {| y_interface := Some "eth0";
     y_poll_interval := Some 30%Z;
     y_stability_delay := Some 0%Z;
     y_cloudflare := y_cloudflare exampleYaml |}.

Definition recordA : DNSRecord.t :=
  {| DNSRecord.ID := "abc123"; DNSRecord.Type_ := "AAAA";
     DNSRecord.Name := "home.example.com"; DNSRecord.Content := "2001:db8::1";
     DNSRecord.TTL := 1; DNSRecord.Proxied := false |}.

Definition authError : CFError := {| Code := 10000; Message := "Authentication error" |}.

(** After startup with the record [recordA] found and 2001:db8::2 on the
    interface: 2001:db8::1 is confirmed, 2001:db8::2 is pending, timer 0 is
    scheduled. *)
Definition stabilizing : World :=
  {| svc := {| config := exampleConfig; lastKnownIP := "2001:db8::1";
               pendingIP := "2001:db8::2"; stabilityTimer := Some 0;
               recordID := "abc123" |};
     timers := [{| duration := 5000000000; status := Scheduled |}];
     trace := [HttpDo (lookupRequest (svc (newService exampleConfig)));
               Log (LogFoundExisting "home.example.com" "2001:db8::1");
               Log (LogStarting "eth0" "home.example.com");
               Log (LogDetectedNew "2001:db8::2" "2001:db8::1");
               Log (LogWaiting 5)] |}.

(** After startup with no record found and 2001:db8::2 on the interface. *)
Definition firstDetection : World :=
  {| svc := {| config := exampleConfig; lastKnownIP := "";
               pendingIP := "2001:db8::2"; stabilityTimer := Some 0;
               recordID := "" |};
     timers := [{| duration := 5000000000; status := Scheduled |}];
     trace := [HttpDo (lookupRequest (svc (newService exampleConfig)));
               Log (LogRecordMissing "home.example.com");
               Log (LogStarting "eth0" "home.example.com");
               Log (LogDetected "2001:db8::2");
               Log (LogWaiting 5)] |}.

(** The example document with [poll_interval: -1], and one without the
    [interface] key. *)
Definition negativePollYaml : YamlConfig :=
  {| y_interface := Some "eth0";
     y_poll_interval := Some (-1)%Z;
     y_stability_delay := None;
     y_cloudflare := y_cloudflare exampleYaml |}.

Definition noInterfaceYaml : YamlConfig :=
  {| y_interface := None;
     y_poll_interval := Some 30%Z;
     y_stability_delay := None;
     y_cloudflare := y_cloudflare exampleYaml |}.

(** 2001:db8::3 *)
Definition addrC : IP.t :=
  [x20; x01; x0d; xb8; x00; x00; x00; x00; x00; x00; x00; x00; x00; x00; x00; x03].

Definition lookC : IfaceLookup := Addrs [IPNet addrC mask64].

(** ** Further notions *)

(** The probe returns an error: the interface is missing, its addresses
    cannot be listed, or the loop runs through without a return. *)
Definition probeFailed (look : IfaceLookup) : bool :=
  match look with
  | NoSuchInterface | AddrsFail => true
  | Addrs addrs =>
      match rangeAddrs addrs with
      | Exhausted => true
      | _ => false
      end
  end.

(** A request that writes the record: a POST or a PUT whose body is an AAAA
    record with a non-empty content. *)
Definition writesRecord (req : Request) : Prop :=
  (Method req = "POST" \/ Method req = "PUT")
  /\ exists b, ReqBody req = Some b /\ Body.type_ b = "AAAA" /\ Body.content b <> "".

(** The required keys of the document are supplied and not empty. *)
Definition requiredKeys (y : YamlConfig) : Prop :=
  (exists i, y_interface y = Some i /\ i <> "")
  /\ exists yc tok zone name,
      y_cloudflare y = Some yc
      /\ y_api_token yc = Some tok /\ tok <> ""
      /\ y_zone_id yc = Some zone /\ zone <> ""
      /\ y_record_name yc = Some name /\ name <> "".

(** Every address of the list differs from the one before it, the first
    from [prev]. *)
Fixpoint keepsChanging (prev : string) (ips : list string) : Prop :=
  match ips with
  | [] => True
  | ip :: rest => ip <> prev /\ keepsChanging ip rest
  end.

(** Successive expiries: timer [t] fires, then the timer it started, which
    is number [next] of the store, and so on. *)
Fixpoint expiries (t next : nat) (obs : list (IfaceLookup * HttpOutcome DNSRecord.t))
    : list Event :=
  match obs with
  | [] => []
  | (look, o) :: rest => TimerFires t look o :: expiries next (S next) rest
  end.

(** ** The callback in two halves *)

(** The world once the request is built, and handed over unless
    [http.NewRequest] failed. *)
Definition requested (ip : string) (newRequestFails : bool) (w : World) : World :=
  {| svc := svc w; timers := timers w;
     trace := (trace w ++ UpdateDNSCalled ip ::
                 if newRequestFails then []
                 else [HttpDo (requestOf (svc w) ip)])%list |}.

(** What the answer leaves of the world: the record identifier is stored when
    none was known at that moment. *)
Definition answeredWorld (o : HttpOutcome DNSRecord.t) (w : World) : World :=
  {| svc := {| config := config (svc w); lastKnownIP := lastKnownIP (svc w);
               pendingIP := pendingIP (svc w); stabilityTimer := stabilityTimer (svc w);
               recordID := match o with
                           | Response true _ result =>
                               if String.eqb (recordID (svc w)) ""
                               then DNSRecord.ID result else recordID (svc w)
                           | _ => recordID (svc w)
                           end |};
     timers := timers w;
     trace := trace w |}.




(** * Verification *)

(** ** The prober *)

Lemma byte_eqb_eq (a b : byte) : Byte.eqb a b = true <-> a = b.
Proof.
  split; [apply Byte.byte_dec_bl | intros ->; apply Byte.byte_dec_lb; reflexivity].
Qed.

Lemma bytes_eqb_eq (a b : IP.t) : IP.bytes_eqb a b = true <-> a = b.
Proof.
  revert b; induction a as [|x a IH]; intros [|y b]; simpl; try (split; congruence).
  rewrite andb_true_iff, byte_eqb_eq, IH. split; [intros [-> ->]; reflexivity | intros [= -> ->]; auto].
Qed.

Lemma land_c0_range (b : byte) :
  N.eqb (N.land (Byte.to_N b) 0xc0) 0x80 = true
  <-> (0x80 <= Byte.to_N b < 0xc0)%N.
Proof.
  rewrite N.eqb_eq.
  destruct b; cbn;
    match goal with
    | |- context [N.land ?x ?y] =>
        let v := eval vm_compute in (N.land x y) in change (N.land x y) with v
    end; lia.
Qed.

Lemma v4InV6_spec (ip : IP.t) :
  length ip = 16 ->
  IP.isZeros (take 10 ip) && Byte.eqb (IP.at_ ip 10) xff && Byte.eqb (IP.at_ ip 11) xff = true
  <-> take 12 ip = IP.v4InV6Prefix.
Proof.
  intros Hlen.
  do 16 (destruct ip as [|? ip]; [discriminate Hlen|]).
  destruct ip; [|discriminate Hlen].
  unfold IP.isZeros, IP.at_, IP.v4InV6Prefix. cbn -[Byte.eqb].
  rewrite !andb_true_iff, !byte_eqb_eq. split.
  - intros H. repeat match goal with H : _ /\ _ |- _ => destruct H end.
    subst. reflexivity.
  - intros [= -> -> -> -> -> -> -> -> -> -> -> ->]. repeat split; reflexivity.
Qed.

(** [ip.To4() == nil] is the test for an IPv6 address. *)
Lemma To4_None_iff (ip : IP.t) : IP.To4 ip = None <-> isIPv6 ip.
Proof.
  unfold IP.To4, isIPv6, IP.IPv4len, IP.IPv6len.
  destruct (Nat.eqb_spec (length ip) 4) as [H4|H4].
  { split; [discriminate | intros [H _]; contradiction]. }
  destruct (Nat.eqb_spec (length ip) 16) as [H16|H16].
  - cbn [andb]. pose proof (v4InV6_spec ip H16) as Hv.
    replace (true && IP.isZeros (take 10 ip)) with (IP.isZeros (take 10 ip)) by reflexivity.
    destruct (IP.isZeros (take 10 ip) && Byte.eqb (IP.at_ ip 10) xff
              && Byte.eqb (IP.at_ ip 11) xff).
    + split; [discriminate|]. intros [_ H]. exfalso. apply H. split; [exact H16|].
      apply Hv. reflexivity.
    + split; [|reflexivity]. intros _. split; [exact H4|].
      intros [_ H]. apply Hv in H. discriminate.
  - cbn. split; [|reflexivity]. intros _. split; [exact H4 | tauto].
Qed.

Lemma IsLinkLocalUnicast_spec (ip : IP.t) :
  IP.To4 ip = None -> (IP.IsLinkLocalUnicast ip = true <-> linkLocal ip).
Proof.
  unfold IP.IsLinkLocalUnicast, linkLocal. intros ->.
  rewrite !andb_true_iff, Nat.eqb_eq, byte_eqb_eq, land_c0_range.
  unfold IP.IPv6len. tauto.
Qed.

Lemma IsLoopback_spec (ip : IP.t) :
  IP.To4 ip = None -> (IP.IsLoopback ip = true <-> loopback ip).
Proof.
  unfold IP.IsLoopback, loopback. intros H4. rewrite H4.
  unfold IP.Equal.
  destruct (Nat.eqb (length ip) (length IP.IPv6loopback)) eqn:Hlen.
  - apply bytes_eqb_eq.
  - split; [|intros ->; discriminate].
    destruct (Nat.eqb (length ip) IP.IPv4len) eqn:H1.
    + unfold IP.To4 in H4. rewrite H1 in H4. discriminate.
    + simpl. rewrite andb_false_r. discriminate.
Qed.

Lemma uniqueLocal_spec (ip0 : byte) (rest : IP.t) :
  Byte.eqb ip0 xfc || Byte.eqb ip0 xfd = true <-> uniqueLocal (ip0 :: rest).
Proof.
  unfold uniqueLocal. rewrite orb_true_iff, !byte_eqb_eq. split.
  - intros H. exists ip0, rest. auto.
  - intros (b & r & [= -> ->] & H). exact H.
Qed.

(** The loop returns at an entry exactly when that entry passes every filter. *)
Lemma rangeAddrs_cons (a : Addr) (rest : list Addr) :
  nonemptyIPs [a] = true ->
  (qualifies a /\ exists ip mask, a = IPNet ip mask
                                  /\ rangeAddrs (a :: rest) = Return (IP.String_ ip))
  \/ (~ qualifies a /\ rangeAddrs (a :: rest) = rangeAddrs rest).
Proof.
  destruct a as [ip mask|]; simpl; [|intros _; right; tauto].
  intros Hne.
  case_bool_decide as H4.
  { right. split; [|reflexivity]. intros [E _]. apply To4_None_iff in E.
    rewrite E in H4. destruct H4 as [? ?]. discriminate. }
  assert (Hn : IP.To4 ip = None).
  { destruct (IP.To4 ip); [exfalso; apply H4; eauto | reflexivity]. }
  assert (Hv6 : isIPv6 ip) by (apply To4_None_iff, Hn).
  destruct (IP.IsLinkLocalUnicast ip) eqn:Hll.
  { right. split; [|reflexivity]. apply IsLinkLocalUnicast_spec in Hll; tauto. }
  destruct (IP.IsLoopback ip) eqn:Hlo.
  { right. split; [|reflexivity]. apply IsLoopback_spec in Hlo; tauto. }
  destruct ip as [|ip0 tl]; [discriminate|].
  destruct (Byte.eqb ip0 xfc || Byte.eqb ip0 xfd) eqn:Hula.
  { right. split; [|reflexivity]. apply (uniqueLocal_spec ip0 tl) in Hula; tauto. }
  destruct (IP.IsGlobalUnicast (ip0 :: tl)) eqn:Hgu.
  - left. split; [|eauto].
    split; [exact Hv6 | split; [|split; [|split; [|exact Hgu]]]].
    + rewrite <- IsLinkLocalUnicast_spec by assumption. congruence.
    + rewrite <- IsLoopback_spec by assumption. congruence.
    + rewrite <- (uniqueLocal_spec ip0 tl). congruence.
  - right. split; [|reflexivity]. unfold globalUnicast. intros (_ & _ & _ & _ & E). congruence.
Qed.

Lemma rangeAddrs_spec (addrs : list Addr) :
  nonemptyIPs addrs = true ->
  (exists pre ip mask post,
      addrs = (pre ++ IPNet ip mask :: post)%list
      /\ Forall (fun a => ~ qualifies a) pre
      /\ qualifies (IPNet ip mask)
      /\ rangeAddrs addrs = Return (IP.String_ ip))
  \/ (Forall (fun a => ~ qualifies a) addrs /\ rangeAddrs addrs = Exhausted).
Proof.
  induction addrs as [|a rest IH]; intros Hne.
  - right. split; [constructor | reflexivity].
  - assert (Hc : nonemptyIPs (a :: rest) = nonemptyIPs [a] && nonemptyIPs rest)
      by (simpl; rewrite andb_true_r; reflexivity).
    rewrite Hc in Hne.
    apply andb_true_iff in Hne as [Ha Hrest].
    destruct (rangeAddrs_cons a rest Ha) as [(Hq & ip & mask & -> & E) | (Hnq & E)].
    + left. exists [], ip, mask, rest.
      split; [reflexivity | split; [constructor | split; [exact Hq | exact E]]].
    + rewrite E. destruct (IH Hrest) as [(pre & ip & mask & post & -> & Hpre & Hq & E') | (Hall & E')].
      * left. exists (a :: pre), ip, mask, post.
        split; [reflexivity | split; [constructor; assumption | split; [exact Hq | exact E']]].
      * right. split; auto.
Qed.

(** C2: [getPublicIPv6] returns the first address in enumeration order that
    is IPv6, not link-local, not loopback, not unique-local and global
    unicast (as its string); with no such address it fails with "no public
    IPv6 address found", and with "interface not found" when the interface
    does not exist.  The addresses are those an interface can hold: none is
    an empty byte slice. *)
Theorem getPublicIPv6_first_qualifying (look : IfaceLookup) (w : World) :
  match look with Addrs addrs => nonemptyIPs addrs = true | _ => True end ->
  match look with
  | NoSuchInterface =>
      getPublicIPv6 look w = Val (Err (ErrInterfaceNotFound (Interface (config (svc w))))) w
  | AddrsFail =>
      getPublicIPv6 look w = Val (Err (ErrGettingAddresses (Interface (config (svc w))))) w
  | Addrs addrs =>
      (exists pre ip mask post,
          addrs = (pre ++ IPNet ip mask :: post)%list
          /\ Forall (fun a => ~ qualifies a) pre
          /\ qualifies (IPNet ip mask)
          /\ getPublicIPv6 look w = Val (Ok (IP.String_ ip)) w)
      \/ (Forall (fun a => ~ qualifies a) addrs
          /\ getPublicIPv6 look w = Val (Err (ErrNoPublicIPv6 (Interface (config (svc w))))) w)
  end.
Proof.
  destruct look as [| |addrs]; intros Hne; try reflexivity.
  destruct (rangeAddrs_spec addrs Hne) as [(pre & ip & mask & post & -> & Hpre & Hq & E) | (Hall & E)].
  - left. exists pre, ip, mask, post.
    split; [reflexivity | split; [exact Hpre | split; [exact Hq |]]].
    unfold getPublicIPv6, getS, mbind, M_bind. rewrite E. reflexivity.
  - right. split; auto.
    unfold getPublicIPv6, getS, mbind, M_bind. rewrite E. reflexivity.
Qed.

(** ** A found address is never the empty string *)

Lemma append_nonempty_l (a b : string) : a <> "" -> a ++ b <> "".
Proof. destruct a; simpl; intros H; [congruence | discriminate]. Qed.

Lemma append_nonempty_r (a : string) (c : ascii) (b : string) : a ++ String c b <> "".
Proof. destruct a; simpl; discriminate. Qed.

Lemma appendHex_nonempty (v : N) : IP.appendHex v <> "".
Proof.
  unfold IP.appendHex.
  repeat match goal with |- context [if ?c then _ else _] => destruct c end;
    discriminate.
Qed.

Lemma printGroups_nonempty (ip : IP.t) (z : option (nat * nat)) (fuel : nat) :
  IP.printGroups ip z 0 (S fuel) <> "".
Proof.
  simpl. destruct z as [[zs ze]|].
  - destruct zs; [discriminate|].
    apply (append_nonempty_l (IP.appendHex (IP.v6u16 ip 0))), appendHex_nonempty.
  - apply (append_nonempty_l (IP.appendHex (IP.v6u16 ip 0))), appendHex_nonempty.
Qed.

(** [ip.String()] is never the empty string. *)
Lemma String_nonempty (ip : IP.t) : IP.String_ ip <> "".
Proof.
  unfold IP.String_.
  destruct (Nat.eqb (length ip) 0); [discriminate|].
  destruct (negb _ && negb _); [discriminate|].
  destruct (IP.To4 ip) as [p4|].
  - apply append_nonempty_r.
  - apply printGroups_nonempty.
Qed.

Lemma rangeAddrs_nonempty (addrs : list Addr) (ip : string) :
  rangeAddrs addrs = Return ip -> ip <> "".
Proof.
  induction addrs as [|[a mask|] rest IH]; simpl; [discriminate | | exact IH].
  repeat match goal with
         | |- context [if ?c then _ else _] => destruct c; [exact IH|]
         end.
  destruct a as [|ip0 tl]; [discriminate|].
  repeat match goal with
         | |- context [if ?c then _ else _] => destruct c; try exact IH
         end.
  intros [= <-]. apply String_nonempty.
Qed.

(** What a probe does to the world: nothing; it panics, or fails, or finds
    a non-empty address. *)
Lemma getPublicIPv6_cases (look : IfaceLookup) (w : World) :
  getPublicIPv6 look w = Panic
  \/ (exists e, getPublicIPv6 look w = Val (Err e) w)
  \/ (exists ip, getPublicIPv6 look w = Val (Ok ip) w /\ ip <> "").
Proof.
  unfold getPublicIPv6, mbind, M_bind, getS.
  destruct look as [| |addrs]; [right; left; eauto .. |].
  destruct (rangeAddrs addrs) as [ip| |] eqn:E.
  - right; right. exists ip. split; [reflexivity|]. eapply rangeAddrs_nonempty, E.
  - right; left. eauto.
  - left. reflexivity.
Qed.

Lemma probes_nonempty (look : IfaceLookup) (ip : string) : probes look ip -> ip <> "".
Proof.
  intros H.
  destruct (getPublicIPv6_cases look (newService zeroConfig)) as [E|[[e E]|(ip' & E & Hne)]];
    rewrite (H _) in E; congruence.
Qed.

(** ** The operations of the state machine *)

Lemma length_stopAt (t : nat) (l : list Timer) : length (stopAt t l) = length l.
Proof. unfold stopAt. destruct (l !! t); [apply length_insert | reflexivity]. Qed.

Lemma length_stopPtr (p : option nat) (l : list Timer) : length (stopPtr p l) = length l.
Proof. destruct p; [apply length_stopAt | reflexivity]. Qed.

Lemma stopTimer_not_scheduled (tm : Timer) : status (stopTimer tm) <> Scheduled.
Proof. unfold stopTimer. destruct (status tm) eqn:E; simpl; congruence. Qed.

Lemma scheduled_stopAt (t t' : nat) (l : list Timer) :
  scheduled (stopAt t l) t' = if Nat.eqb t t' then false else scheduled l t'.
Proof.
  unfold scheduled, stopAt.
  destruct (Nat.eqb_spec t t') as [<-|Hne].
  - destruct (l !! t) as [tm|] eqn:E; [|rewrite E; reflexivity].
    rewrite list_lookup_insert_eq by (eapply lookup_lt_Some, E).
    pose proof (stopTimer_not_scheduled tm).
    destruct (stopTimer tm) as [d []]; simpl in *; congruence.
  - destruct (l !! t) as [tm|] eqn:E; [|reflexivity].
    rewrite list_lookup_insert_ne by assumption. reflexivity.
Qed.

Lemma scheduled_lt (l : list Timer) (t : nat) : scheduled l t = true -> t < length l.
Proof.
  unfold scheduled. destruct (l !! t) eqn:E; [|discriminate].
  intros _. eapply lookup_lt_Some, E.
Qed.

(** Unfold the primitives of the monad. *)
Ltac run_m :=
  unfold set_pendingIP, set_lastKnownIP, set_stabilityTimer, set_recordID,
    logPrintf, emit, timerStop, afterFunc, putS, getS, panic,
    mbind, M_bind, mret, M_ret;
  cbn.

Lemma startStabilityTimer_eq (w : World) : startStabilityTimer w = Val tt (started w).
Proof.
  unfold startStabilityTimer, started. run_m.
  destruct (stabilityTimer (svc w)) as [t|]; cbn; rewrite ?length_stopAt; reflexivity.
Qed.

Lemma cancelPendingUpdate_eq (w : World) : cancelPendingUpdate w = Val tt (cancelled w).
Proof.
  unfold cancelPendingUpdate, cancelled. run_m.
  destruct (stabilityTimer (svc w)) as [t|] eqn:E; cbn; rewrite ?E; reflexivity.
Qed.

Lemma updateDNS_eq (ip : string) (o : HttpOutcome DNSRecord.t) (w : World) :
  updateDNS ip o w = Val (updateError o) (updated ip o w).
Proof.
  destruct w as [[cfg lk pd st rid] tms tr].
  unfold updateDNS, updated, requestOf. run_m.
  destruct (String.eqb rid "") eqn:E;
    destruct o as [| | | |[] errs r]; cbn; rewrite <- ?app_assoc; cbn; rewrite ?E; reflexivity.
Qed.

#[local] Arguments getPublicIPv6 : simpl never.

#[local] Arguments startStabilityTimer : simpl never.

#[local] Arguments cancelPendingUpdate : simpl never.

#[local] Arguments updateDNS : simpl never.

Lemma bind_eq {A B : Type} (m : M A) (f : A -> M B) (w : World) :
  (m ≫= f) w = match m w with Val a w' => f a w' | Panic => Panic end.
Proof. reflexivity. Qed.

(** *** The rules of a poll *)

Section Poll.
Variables (look : IfaceLookup) (w : World).

Lemma checkAndUpdate_panic :
  getPublicIPv6 look w = Panic -> checkAndUpdate look w = Panic.
Proof. intros H. unfold checkAndUpdate. rewrite bind_eq, H. reflexivity. Qed.

(** Rule 1: the probe fails; only a log line. *)
Lemma checkAndUpdate_probe_error (e : Error) :
  getPublicIPv6 look w = Val (Err e) w ->
  checkAndUpdate look w = Val tt (logged (LogErrorGetting e) w).
Proof. intros H. unfold checkAndUpdate. rewrite bind_eq, H. reflexivity. Qed.

Variable ip : string.
Hypothesis Hprobe : getPublicIPv6 look w = Val (Ok ip) w.

(** Rule 2, revert: the confirmed address is back while another is pending. *)
Lemma checkAndUpdate_revert :
  ip = lastKnownIP (svc w) ->
  pendingIP (svc w) <> "" -> pendingIP (svc w) <> ip ->
  checkAndUpdate look w = Val tt (cancelled (logged (LogReverted ip) w)).
Proof.
  intros H1 H2 H3. unfold checkAndUpdate. rewrite bind_eq, Hprobe. run_m.
  apply String.eqb_eq in H1. apply String.eqb_neq in H2, H3.
  rewrite H1, H2, H3. cbn. apply cancelPendingUpdate_eq.
Qed.

(** Rule 2, otherwise: nothing happens. *)
Lemma checkAndUpdate_unchanged :
  ip = lastKnownIP (svc w) ->
  pendingIP (svc w) = "" \/ pendingIP (svc w) = ip ->
  checkAndUpdate look w = Val tt w.
Proof.
  intros H1 H2. unfold checkAndUpdate. rewrite bind_eq, Hprobe. run_m.
  apply String.eqb_eq in H1. rewrite H1.
  destruct H2 as [H2|H2]; apply String.eqb_eq in H2; rewrite H2; cbn;
    rewrite ?andb_false_r; reflexivity.
Qed.

(** Rule 3: a new candidate; it becomes pending and the timer is (re)started. *)
Lemma checkAndUpdate_new :
  ip <> lastKnownIP (svc w) -> ip <> pendingIP (svc w) ->
  checkAndUpdate look w =
    Val tt (started (withPending ip
              (logged (if String.eqb (lastKnownIP (svc w)) "" then LogDetected ip
                       else LogDetectedNew ip (lastKnownIP (svc w))) w))).
Proof.
  intros H1 H2. unfold checkAndUpdate. rewrite bind_eq, Hprobe. run_m.
  apply String.eqb_neq in H1, H2. rewrite H1, H2. cbn.
  destruct (String.eqb (lastKnownIP (svc w)) ""); cbn; apply startStabilityTimer_eq.
Qed.

(** Rule 4: the candidate is already being watched. *)
Lemma checkAndUpdate_watching :
  ip <> lastKnownIP (svc w) -> ip = pendingIP (svc w) ->
  checkAndUpdate look w = Val tt w.
Proof.
  intros H1 H2. unfold checkAndUpdate. rewrite bind_eq, Hprobe. run_m.
  apply String.eqb_neq in H1. apply String.eqb_eq in H2. rewrite H1, H2. reflexivity.
Qed.
End Poll.

(** *** The rules of the timer-expiry handler *)

Section Expiry.
Variables (look : IfaceLookup) (o : HttpOutcome DNSRecord.t) (w : World).

Lemma stabilityCallback_panic :
  getPublicIPv6 look w = Panic -> stabilityCallback look o w = Panic.
Proof. intros H. unfold stabilityCallback. rewrite bind_eq, H. reflexivity. Qed.

(** (a) the re-probe fails: the candidate is abandoned. *)
Lemma stabilityCallback_probe_error (e : Error) :
  getPublicIPv6 look w = Val (Err e) w ->
  stabilityCallback look o w = Val tt (withPending "" (logged (LogErrorVerifying e) w)).
Proof. intros H. unfold stabilityCallback. rewrite bind_eq, H. reflexivity. Qed.

Variable ip : string.
Hypothesis Hprobe : getPublicIPv6 look w = Val (Ok ip) w.

(** (b) the address moved again: it becomes pending, the timer restarts. *)
Lemma stabilityCallback_changed :
  ip <> pendingIP (svc w) ->
  stabilityCallback look o w =
    Val tt (started (withPending ip (logged LogChangedDuringWindow w))).
Proof.
  intros H. unfold stabilityCallback. rewrite bind_eq, Hprobe. run_m.
  apply String.eqb_neq in H. rewrite H. cbn. apply startStabilityTimer_eq.
Qed.

(** (c) the address is stable: [updateDNS] is called once. *)
Lemma stabilityCallback_stable :
  ip = pendingIP (svc w) ->
  stabilityCallback look o w =
    Val tt (settled ip o (updated ip o (logged (LogStable (StabilityDelay (config (svc w)))) w))).
Proof.
  intros H. unfold stabilityCallback. rewrite bind_eq, Hprobe. run_m.
  apply String.eqb_eq in H. rewrite H. cbn.
  rewrite updateDNS_eq. unfold settled.
  destruct (updateError o); reflexivity.
Qed.
End Expiry.

(** *** The timer invariant *)

Lemma noneScheduled_inv (w : World) :
  noneScheduled w -> pendingIP (svc w) = "" -> timerInv w.
Proof.
  intros Hn Hp. split.
  - intros t Ht. rewrite Hn in Ht. discriminate.
  - rewrite Hp. split; [congruence|]. intros [t Ht]. rewrite Hn in Ht. discriminate.
Qed.

Lemma scheduled_stopPtr (p : option nat) (l : list Timer) (t : nat) :
  (forall t', scheduled l t' = true -> p = Some t') ->
  scheduled (stopPtr p l) t = false.
Proof.
  intros H. destruct p as [t0|]; simpl.
  - rewrite scheduled_stopAt. destruct (Nat.eqb_spec t0 t) as [->|Hne]; [reflexivity|].
    destruct (scheduled l t) eqn:E; [|reflexivity].
    apply H in E. congruence.
  - destruct (scheduled l t) eqn:E; [|reflexivity]. apply H in E. discriminate.
Qed.

(** Starting a timer leaves exactly the new timer scheduled. *)
Lemma isScheduled_started (w : World) (t : nat) :
  onePointer w ->
  isScheduled (started w) t = true <-> t = length (timers w).
Proof.
  intros H1. unfold isScheduled, started; cbn.
  pose proof (scheduled_stopPtr (stabilityTimer (svc w)) (timers w) t H1) as Hs.
  unfold scheduled in *.
  destruct (Nat.lt_total t (length (timers w))) as [Hlt|[->|Hgt]].
  - rewrite lookup_app_l by (rewrite length_stopPtr; exact Hlt).
    split; [intros E; rewrite E in Hs; discriminate | lia].
  - rewrite lookup_app_r by (rewrite length_stopPtr; lia).
    rewrite length_stopPtr, Nat.sub_diag. cbn. tauto.
  - rewrite lookup_ge_None_2 by (rewrite length_app, length_stopPtr; cbn; lia).
    split; [discriminate | lia].
Qed.

Lemma started_inv (w : World) :
  onePointer w -> pendingIP (svc w) <> "" -> timerInv (started w).
Proof.
  intros H1 Hp. split.
  - intros t Ht. apply isScheduled_started in Ht; [|exact H1]. subst. reflexivity.
  - split; [|intros _; exact Hp].
    intros _. exists (length (timers w)). apply isScheduled_started; auto.
Qed.

Lemma cancelled_noneScheduled (w : World) :
  onePointer w -> noneScheduled (cancelled w).
Proof. intros H1 t. apply scheduled_stopPtr, H1. Qed.

Lemma isScheduled_expire (w : World) (t t' : nat) :
  isScheduled (expire t w) t' = if Nat.eqb t t' then false else isScheduled w t'.
Proof.
  unfold isScheduled, scheduled, expire; cbn.
  destruct (Nat.eqb_spec t t') as [<-|Hne].
  - rewrite list_lookup_alter_eq. destruct (timers w !! t); reflexivity.
  - rewrite list_lookup_alter_ne by assumption. reflexivity.
Qed.

Lemma expire_noneScheduled (w : World) (t : nat) :
  onePointer w -> isScheduled w t = true -> noneScheduled (expire t w).
Proof.
  intros H1 Ht t'. rewrite isScheduled_expire.
  destruct (Nat.eqb_spec t t') as [<-|Hne]; [reflexivity|].
  destruct (isScheduled w t') eqn:E; [|reflexivity].
  apply H1 in E, Ht. congruence.
Qed.

Lemma noneScheduled_onePointer (w : World) : noneScheduled w -> onePointer w.
Proof. intros Hn t Ht. rewrite Hn in Ht. discriminate. Qed.

(** A poll keeps the invariant. *)
Lemma checkAndUpdate_inv (look : IfaceLookup) (w w' : World) :
  timerInv w -> checkAndUpdate look w = Val tt w' -> timerInv w'.
Proof.
  intros [H1 H2] Hrun.
  destruct (getPublicIPv6_cases look w) as [E|[[e E]|(ip & E & Hne)]].
  - rewrite (checkAndUpdate_panic _ _ E) in Hrun. discriminate.
  - rewrite (checkAndUpdate_probe_error _ _ _ E) in Hrun.
    injection Hrun as <-. split; assumption.
  - destruct (String.eqb_spec ip (lastKnownIP (svc w))) as [Hl|Hl].
    + destruct (String.eqb_spec (pendingIP (svc w)) "") as [Hp|Hp].
      { rewrite (checkAndUpdate_unchanged _ _ _ E Hl (or_introl Hp)) in Hrun.
        injection Hrun as <-. split; assumption. }
      destruct (String.eqb_spec (pendingIP (svc w)) ip) as [Hq|Hq].
      { rewrite (checkAndUpdate_unchanged _ _ _ E Hl (or_intror Hq)) in Hrun.
        injection Hrun as <-. split; assumption. }
      rewrite (checkAndUpdate_revert _ _ _ E Hl Hp Hq) in Hrun.
      injection Hrun as <-.
      apply noneScheduled_inv; [|reflexivity].
      apply cancelled_noneScheduled. exact H1.
    + destruct (String.eqb_spec ip (pendingIP (svc w))) as [Hp|Hp].
      { rewrite (checkAndUpdate_watching _ _ _ E Hl Hp) in Hrun.
        injection Hrun as <-. split; assumption. }
      rewrite (checkAndUpdate_new _ _ _ E Hl Hp) in Hrun.
      injection Hrun as <-.
      apply started_inv; [exact H1 | exact Hne].
Qed.

(** The expiry handler of a scheduled timer restores the invariant. *)
Lemma stabilityCallback_inv (t : nat) (look : IfaceLookup)
    (o : HttpOutcome DNSRecord.t) (w w' : World) :
  timerInv w -> isScheduled w t = true ->
  stabilityCallback look o (expire t w) = Val tt w' -> timerInv w'.
Proof.
  intros [H1 H2] Ht Hrun.
  pose proof (expire_noneScheduled w t H1 Ht) as Hn.
  destruct (getPublicIPv6_cases look (expire t w)) as [E|[[e E]|(ip & E & Hne)]].
  - rewrite (stabilityCallback_panic _ _ _ E) in Hrun. discriminate.
  - rewrite (stabilityCallback_probe_error _ _ _ _ E) in Hrun.
    injection Hrun as <-. apply noneScheduled_inv; [exact Hn | reflexivity].
  - destruct (String.eqb_spec ip (pendingIP (svc (expire t w)))) as [Hp|Hp].
    + rewrite (stabilityCallback_stable _ _ _ _ E Hp) in Hrun.
      injection Hrun as <-. apply noneScheduled_inv; [|reflexivity].
      intros t'. specialize (Hn t'). unfold settled.
      destruct (updateError o); exact Hn.
    + rewrite (stabilityCallback_changed _ _ _ _ E Hp) in Hrun.
      injection Hrun as <-.
      apply started_inv; [|exact Hne].
      apply noneScheduled_onePointer. exact Hn.
Qed.

(** *** Startup *)

Lemma fetchRecordID_eq (o : HttpOutcome (list DNSRecord.t)) (w : World) :
  fetchRecordID o w = Val (fetchError o) (fetched o w).
Proof.
  destruct w as [[cfg lk pd st rid] tms tr].
  unfold fetchRecordID, fetched, lookupRequest. run_m.
  destruct o as [| | | |[] errs [|r0 rs]]; cbn; rewrite <- ?app_assoc, ?app_nil_r; reflexivity.
Qed.

(** [main] reaches the polling loop exactly through these steps. *)
Lemma main_Running (file : ConfigFile) (fetch : HttpOutcome (list DNSRecord.t))
    (first : IfaceLookup) (w : World) :
  main file fetch first = Running w <->
  exists config,
    loadConfig file = Ok config /\ validateConfig config = None
    /\ fetchError fetch = None
    /\ (0 < seconds (PollInterval config))%Z
    /\ checkAndUpdate first (booted config fetch) = Val tt w.
Proof.
  unfold main. destruct (loadConfig file) as [config|e].
  2:{ split; [discriminate | intros (c & [=] & _)]. }
  destruct (validateConfig config) as [e|] eqn:Ev.
  { split; [discriminate | intros (c & [= <-] & Hv & _); congruence]. }
  rewrite fetchRecordID_eq.
  destruct (fetchError fetch) as [e|] eqn:Ef.
  { split; [discriminate | intros (c & _ & _ & [=] & _)]. }
  rewrite !bind_eq. unfold newTicker. fold (booted config fetch).
  change (logPrintf (LogStarting (Interface config) (RecordName (CloudFlare config)))
            (fetched fetch (newService config)))
    with (Val tt (booted config fetch)).
  destruct (Z.leb_spec (seconds (PollInterval config)) 0) as [Hle|Hlt].
  { split; [discriminate | intros (c & [= <-] & _ & _ & Hpos & _); lia]. }
  change ((mret tt ≫= fun _ : () => checkAndUpdate first) (booted config fetch))
    with (checkAndUpdate first (booted config fetch)).
  split.
  - destruct (checkAndUpdate first (booted config fetch)) as [[] w1|] eqn:E; [|discriminate].
    intros [= <-]. exists config. auto.
  - intros (c & [= <-] & _ & _ & _ & ->). reflexivity.
Qed.

Lemma booted_inv (config : Config) (fetch : HttpOutcome (list DNSRecord.t)) :
  timerInv (booted config fetch).
Proof.
  apply noneScheduled_inv; [|reflexivity].
  intros t. unfold isScheduled, scheduled. cbn. reflexivity.
Qed.

Lemma main_inv (file : ConfigFile) (fetch : HttpOutcome (list DNSRecord.t))
    (first : IfaceLookup) (w : World) :
  main file fetch first = Running w -> timerInv w.
Proof.
  intros H. apply main_Running in H as (config & _ & _ & _ & _ & H).
  eapply checkAndUpdate_inv; [apply booted_inv | exact H].
Qed.

Lemma step_Tick (w : World) (look : IfaceLookup) (w' : World) :
  step w (Tick look) = Some (Running w') <-> checkAndUpdate look w = Val tt w'.
Proof.
  cbn. destruct (checkAndUpdate look w) as [[] w1|]; cbn; split; congruence.
Qed.

Lemma step_TimerFires (w : World) (t : nat) (look : IfaceLookup)
    (o : HttpOutcome DNSRecord.t) (w' : World) :
  step w (TimerFires t look o) = Some (Running w') <->
  isScheduled w t = true /\ stabilityCallback look o (expire t w) = Val tt w'.
Proof.
  unfold isScheduled, scheduled. cbn.
  destruct (timers w !! t) as [[d []]|]; cbn;
    try (split; [discriminate | intros [[=] _]]).
  destruct (stabilityCallback look o (expire t w)) as [[] w1|]; cbn;
    split; [intros [= <-]; auto | intros [_ [= <-]]; auto | discriminate | intros [_ [=]]].
Qed.

Lemma step_inv (w : World) (ev : Event) (w' : World) :
  timerInv w -> step w ev = Some (Running w') -> timerInv w'.
Proof.
  intros Hinv Hstep. destruct ev as [look|t look o|].
  - apply step_Tick in Hstep. eapply checkAndUpdate_inv; eauto.
  - apply step_TimerFires in Hstep as [Ht Hcb]. eapply stabilityCallback_inv; eauto.
  - cbn in Hstep. destruct (shutdown w); discriminate.
Qed.

Lemma run_inv (evs : list Event) (p : Proc) (w' : World) :
  (forall w, p = Running w -> timerInv w) ->
  run p evs = Some (Running w') -> timerInv w'.
Proof.
  revert p. induction evs as [|ev evs IH]; intros p Hp; cbn.
  - intros [= ->]. apply Hp. reflexivity.
  - destruct p as [w| |]; try discriminate.
    destruct (step w ev) as [p'|] eqn:Es; [|discriminate].
    apply IH. intros w1 ->. eapply step_inv; [apply Hp; reflexivity | exact Es].
Qed.

(** *** What a trace says about the DNS Record Client *)

Lemma upsertCalls_app (a b : list Effect) :
  upsertCalls (a ++ b) = (upsertCalls a ++ upsertCalls b)%list.
Proof. apply omap_app. Qed.

Lemma httpRequests_app (a b : list Effect) :
  httpRequests (a ++ b) = (httpRequests a ++ httpRequests b)%list.
Proof. apply omap_app. Qed.

(** A poll never reaches the DNS Record Client, and leaves the confirmed
    address, the record identifier and the configuration as they are. *)
Lemma checkAndUpdate_frame (look : IfaceLookup) (w w' : World) :
  checkAndUpdate look w = Val tt w' ->
  config (svc w') = config (svc w)
  /\ recordID (svc w') = recordID (svc w)
  /\ lastKnownIP (svc w') = lastKnownIP (svc w)
  /\ exists delta, trace w' = (trace w ++ delta)%list
                   /\ upsertCalls delta = [] /\ httpRequests delta = [].
Proof.
  intros Hrun.
  destruct (getPublicIPv6_cases look w) as [E|[[e E]|(ip & E & Hne)]].
  - rewrite (checkAndUpdate_panic _ _ E) in Hrun. discriminate.
  - rewrite (checkAndUpdate_probe_error _ _ _ E) in Hrun. injection Hrun as <-.
    repeat split. eexists; split; [reflexivity | split; reflexivity].
  - destruct (String.eqb_spec ip (lastKnownIP (svc w))) as [Hl|Hl].
    + destruct (String.eqb_spec (pendingIP (svc w)) "") as [Hp|Hp].
      { rewrite (checkAndUpdate_unchanged _ _ _ E Hl (or_introl Hp)) in Hrun.
        injection Hrun as <-. repeat split. exists []. rewrite app_nil_r. auto. }
      destruct (String.eqb_spec (pendingIP (svc w)) ip) as [Hq|Hq].
      { rewrite (checkAndUpdate_unchanged _ _ _ E Hl (or_intror Hq)) in Hrun.
        injection Hrun as <-. repeat split. exists []. rewrite app_nil_r. auto. }
      rewrite (checkAndUpdate_revert _ _ _ E Hl Hp Hq) in Hrun. injection Hrun as <-.
      repeat split. eexists; split; [reflexivity | split; reflexivity].
    + destruct (String.eqb_spec ip (pendingIP (svc w))) as [Hp|Hp].
      { rewrite (checkAndUpdate_watching _ _ _ E Hl Hp) in Hrun.
        injection Hrun as <-. repeat split. exists []. rewrite app_nil_r. auto. }
      rewrite (checkAndUpdate_new _ _ _ E Hl Hp) in Hrun. injection Hrun as <-.
      repeat split. cbn. rewrite <- app_assoc.
      eexists; split; [reflexivity | split; reflexivity].
Qed.






Lemma updateError_succeeded (o : HttpOutcome DNSRecord.t) :
  updateError o = None <-> succeeded o = true.
Proof.
  destruct o as [| | | |[] ? ?]; cbn; split; intros H;
    first [reflexivity | discriminate H].
Qed.

Lemma settled_trace_calls (ip : string) (o : HttpOutcome DNSRecord.t) (w : World) :
  upsertCalls (trace (settled ip o w)) = upsertCalls (trace w)
  /\ httpRequests (trace (settled ip o w)) = httpRequests (trace w).
Proof.
  unfold settled. destruct (updateError o); cbn;
    rewrite upsertCalls_app, httpRequests_app, !app_nil_r; auto.
Qed.

Lemma updated_trace_calls (ip : string) (o : HttpOutcome DNSRecord.t) (w : World) :
  upsertCalls (trace (updated ip o w)) = (upsertCalls (trace w) ++ [ip])%list
  /\ httpRequests (trace (updated ip o w)) =
       (httpRequests (trace w) ++
          match o with NewRequestError => [] | _ => [requestOf (svc w) ip] end)%list.
Proof.
  cbn. rewrite upsertCalls_app, httpRequests_app. destruct o; cbn; auto.
Qed.

(** The expiry handler in case (c), seen from [step]. *)
Lemma step_expiry_stable (w : World) (t : nat) (look : IfaceLookup)
    (o : HttpOutcome DNSRecord.t) (B : string) :
  isScheduled w t = true -> pendingIP (svc w) = B -> probes look B ->
  exists w',
    step w (TimerFires t look o) = Some (Running w')
    /\ upsertCalls (trace w') = (upsertCalls (trace w) ++ [B])%list
    /\ httpRequests (trace w') =
         (httpRequests (trace w) ++
            match o with NewRequestError => [] | _ => [requestOf (svc w) B] end)%list
    /\ lastKnownIP (svc w') = (if succeeded o then B else lastKnownIP (svc w))
    /\ pendingIP (svc w') = ""
    /\ config (svc w') = config (svc w)
    /\ stabilityTimer (svc w') = stabilityTimer (svc w)
    /\ (forall t', isScheduled w' t' = isScheduled (expire t w) t')
    /\ last (trace w') = Some (Log match updateError o with
                                   | Some e => LogFailedUpdate e
                                   | None => LogUpdated B
                                   end).
Proof.
  intros Ht Hp Hprobe.
  eexists. split.
  { apply step_TimerFires. split; [exact Ht|].
    apply stabilityCallback_stable; [apply Hprobe | symmetry; exact Hp]. }
  match goal with |- context [settled ?i ?o ?w] =>
    destruct (settled_trace_calls i o w) as [Hu Hh] end.
  rewrite Hu, Hh.
  match goal with |- context [updated ?i ?o ?w] =>
    destruct (updated_trace_calls i o w) as [Hu' Hh'] end.
  rewrite Hu', Hh'. cbn. rewrite upsertCalls_app, httpRequests_app, !app_nil_r.
  split; [reflexivity | split; [reflexivity|]].
  pose proof (updateError_succeeded o) as Hs.
  unfold settled.
  destruct (updateError o) as [e|]; destruct (succeeded o); cbn;
    try (destruct Hs as [Hs1 Hs2]; first [specialize (Hs1 eq_refl) | specialize (Hs2 eq_refl)]; discriminate);
    rewrite last_snoc; auto 10.
Qed.

(** C1: when the stability timer of a state with [pendingIP = B] expires and
    the re-probe returns [B] again, [updateDNS] is called exactly once, with
    [B] (and at most one request is sent, its content [B]); on success
    [lastKnownIP] becomes [B], on failure it keeps its value; in both cases
    [pendingIP] is cleared and no timer remains scheduled. *)
Theorem expiry_stable_upserts_once (w : World) (t : nat) (look : IfaceLookup)
    (o : HttpOutcome DNSRecord.t) (A B : string) :
  timerInv w ->
  isScheduled w t = true ->
  lastKnownIP (svc w) = A -> pendingIP (svc w) = B ->
  probes look B ->
  exists w',
    step w (TimerFires t look o) = Some (Running w')
    /\ upsertCalls (trace w') = (upsertCalls (trace w) ++ [B])%list
    /\ (forall req, req ∈ httpRequests (trace w') ->
        req ∈ httpRequests (trace w)
        \/ (Body.content <$> ReqBody req) = Some B)
    /\ length (httpRequests (trace w')) <= S (length (httpRequests (trace w)))
    /\ lastKnownIP (svc w') = (if succeeded o then B else A)
    /\ pendingIP (svc w') = ""
    /\ noneScheduled w'.
Proof.
  intros [H1 _] Ht HA HB Hprobe.
  destruct (step_expiry_stable w t look o B Ht HB Hprobe)
    as (w' & Hstep & Hu & Hh & Hl & Hp & _ & _ & Hs & _).
  exists w'. split; [exact Hstep | split; [exact Hu|]].
  split; [|split; [|split; [rewrite Hl, HA; reflexivity | split; [exact Hp|]]]].
  - intros req. rewrite Hh, elem_of_app. intros [Hin|Hin]; [left; exact Hin | right].
    destruct o; cbn in Hin;
      first [ apply list_elem_of_singleton in Hin; subst req; reflexivity
            | inversion Hin ].
  - rewrite Hh, length_app. destruct o; cbn; lia.
  - intros t'. rewrite Hs. apply expire_noneScheduled; assumption.
Qed.

Lemma step_TimerFires_disabled (w : World) (t : nat) (look : IfaceLookup)
    (o : HttpOutcome DNSRecord.t) :
  isScheduled w t = false -> step w (TimerFires t look o) = None.
Proof.
  unfold isScheduled, scheduled. cbn.
  destruct (timers w !! t) as [[d []]|]; congruence.
Qed.

Lemma started_new_scheduled (w : World) :
  isScheduled (started w) (length (timers w)) = true.
Proof.
  unfold isScheduled, scheduled, started; cbn.
  rewrite lookup_app_r by (rewrite length_stopPtr; lia).
  rewrite length_stopPtr, Nat.sub_diag. reflexivity.
Qed.

(** C3: in a state with [lastKnownIP = A] and [pendingIP = B], [B <> A], the
    timer running, a poll that observes [A] stops the timer and clears
    [pendingIP]; the poll calls neither [updateDNS] nor the network, and no
    timer is left that could. *)
Theorem revert_cancels_pending (w : World) (t : nat) (look : IfaceLookup) (A B : string) :
  timerInv w ->
  isScheduled w t = true ->
  lastKnownIP (svc w) = A -> pendingIP (svc w) = B -> B <> A ->
  probes look A ->
  exists w',
    step w (Tick look) = Some (Running w')
    /\ isScheduled w' t = false
    /\ stabilityTimer (svc w') = None
    /\ pendingIP (svc w') = ""
    /\ lastKnownIP (svc w') = A
    /\ upsertCalls (trace w') = upsertCalls (trace w)
    /\ httpRequests (trace w') = httpRequests (trace w)
    /\ forall t' look' o', step w' (TimerFires t' look' o') = None.
Proof.
  intros [H1 H2] Ht HA HB Hne Hprobe.
  assert (Hset : pendingIP (svc w) <> "") by (apply H2; eauto).
  exists (cancelled (logged (LogReverted A) w)).
  pose proof (cancelled_noneScheduled (logged (LogReverted A) w) H1) as Hnone.
  split.
  { apply step_Tick. apply checkAndUpdate_revert; [apply Hprobe | congruence | exact Hset | congruence]. }
  split; [apply Hnone|].
  split; [reflexivity | split; [reflexivity | split; [exact HA|]]].
  split; [|split].
  - cbn. rewrite upsertCalls_app, app_nil_r. reflexivity.
  - cbn. rewrite httpRequests_app, app_nil_r. reflexivity.
  - intros t' look' o'. apply step_TimerFires_disabled, Hnone.
Qed.

(** C4: when [updateDNS] fails at expiry, [lastKnownIP] keeps its value and
    [pendingIP] is cleared; a later poll that observes [B] again starts a
    fresh timer, and when that timer expires with [B] still there,
    [updateDNS] is called with [B] once more. *)
Theorem failed_upsert_is_retried (w : World) (t : nat) (look look2 look3 : IfaceLookup)
    (o o3 : HttpOutcome DNSRecord.t) (A B : string) :
  isScheduled w t = true ->
  lastKnownIP (svc w) = A -> pendingIP (svc w) = B -> B <> A ->
  probes look B -> succeeded o = false ->
  probes look2 B -> probes look3 B ->
  exists w1 w2 w3 t2,
    step w (TimerFires t look o) = Some (Running w1)
    /\ lastKnownIP (svc w1) = A
    /\ pendingIP (svc w1) = ""
    /\ step w1 (Tick look2) = Some (Running w2)
    /\ pendingIP (svc w2) = B
    /\ stabilityTimer (svc w2) = Some t2
    /\ t2 <> t
    /\ isScheduled w2 t2 = true
    /\ step w2 (TimerFires t2 look3 o3) = Some (Running w3)
    /\ upsertCalls (trace w3) = (upsertCalls (trace w) ++ [B; B])%list.
Proof.
  intros Ht HA HB Hne Hprobe Hfail Hprobe2 Hprobe3.
  destruct (step_expiry_stable w t look o B Ht HB Hprobe)
    as (w1 & Hstep1 & Hu1 & _ & Hl1 & Hp1 & _ & _ & _ & _).
  rewrite Hfail, HA in Hl1.
  pose (w2 := started (withPending B
                 (logged (if String.eqb (lastKnownIP (svc w1)) "" then LogDetected B
                          else LogDetectedNew B (lastKnownIP (svc w1))) w1))).
  assert (Hstep2 : step w1 (Tick look2) = Some (Running w2)).
  { apply step_Tick. apply checkAndUpdate_new; [apply Hprobe2 | congruence |].
    rewrite Hp1. eapply probes_nonempty, Hprobe. }
  assert (Hs2 : isScheduled w2 (length (timers w1)) = true)
    by apply (started_new_scheduled (withPending B (logged _ w1))).
  destruct (step_expiry_stable w2 (length (timers w1)) look3 o3 B Hs2 eq_refl Hprobe3)
    as (w3 & Hstep3 & Hu3 & _).
  exists w1, w2, w3, (length (timers w1)).
  split; [exact Hstep1 | split; [exact Hl1 | split; [exact Hp1|]]].
  split; [exact Hstep2 | split; [reflexivity | split; [reflexivity|]]].
  split.
  { apply step_TimerFires in Hstep1 as [_ Hcb].
    assert (Hlen : length (timers w1) = length (timers w)).
    { rewrite (stabilityCallback_stable look o (expire t w) B (Hprobe _) (eq_sym HB)) in Hcb.
      injection Hcb as <-. unfold settled. destruct (updateError o); cbn;
        apply length_alter. }
    apply scheduled_lt in Ht. lia. }
  split; [exact Hs2 | split; [exact Hstep3|]].
  rewrite Hu3. subst w2. cbn.
  rewrite !upsertCalls_app, Hu1. cbn. rewrite !app_nil_r, <- app_assoc. reflexivity.
Qed.

(** C10: the expiry handler compares the re-probed address with [pendingIP]
    only.  When the re-probe returns [lastKnownIP] while another address is
    pending, the handler makes [lastKnownIP] the pending address and
    restarts the timer without calling [updateDNS]; when that timer expires
    with the same re-probe result, [updateDNS] is called with the address
    that is already confirmed. *)
Theorem expiry_republishes_confirmed (w : World) (t : nat) (look : IfaceLookup)
    (o o2 : HttpOutcome DNSRecord.t) (A B : string) :
  isScheduled w t = true ->
  lastKnownIP (svc w) = A -> pendingIP (svc w) = B -> B <> A ->
  probes look A ->
  exists w1 w2 t1,
    step w (TimerFires t look o) = Some (Running w1)
    /\ lastKnownIP (svc w1) = A
    /\ pendingIP (svc w1) = A
    /\ stabilityTimer (svc w1) = Some t1
    /\ isScheduled w1 t1 = true
    /\ upsertCalls (trace w1) = upsertCalls (trace w)
    /\ step w1 (TimerFires t1 look o2) = Some (Running w2)
    /\ upsertCalls (trace w2) = (upsertCalls (trace w) ++ [A])%list
    /\ httpRequests (trace w2) =
         (httpRequests (trace w) ++
            match o2 with NewRequestError => [] | _ => [requestOf (svc w) A] end)%list.
Proof.
  intros Ht HA HB Hne Hprobe.
  pose (w1 := started (withPending A (logged LogChangedDuringWindow (expire t w)))).
  assert (Hstep1 : step w (TimerFires t look o) = Some (Running w1)).
  { apply step_TimerFires. split; [exact Ht|].
    apply stabilityCallback_changed; [apply Hprobe | cbn; congruence]. }
  assert (Hs1 : isScheduled w1 (length (timers (expire t w))) = true)
    by apply (started_new_scheduled (withPending A (logged _ (expire t w)))).
  destruct (step_expiry_stable w1 _ look o2 A Hs1 eq_refl Hprobe)
    as (w2 & Hstep2 & Hu2 & Hh2 & _).
  exists w1, w2, (length (timers (expire t w))).
  split; [exact Hstep1 | split; [exact HA | split; [reflexivity | split; [reflexivity|]]]].
  split; [exact Hs1|].
  assert (Hu1 : upsertCalls (trace w1) = upsertCalls (trace w)).
  { subst w1. cbn. rewrite !upsertCalls_app. cbn. rewrite !app_nil_r. reflexivity. }
  assert (Hh1 : httpRequests (trace w1) = httpRequests (trace w)).
  { subst w1. cbn. rewrite !httpRequests_app. cbn. rewrite !app_nil_r. reflexivity. }
  split; [exact Hu1 | split; [exact Hstep2|]].
  rewrite Hu2, Hh2, Hu1, Hh1. split; [reflexivity|].
  reflexivity.
Qed.

(** *** The callback in two halves *)

Lemma updateDNS_request_eq (ip : string) (newRequestFails : bool) (w : World) :
  updateDNS_request ip newRequestFails w =
    Val (negb newRequestFails) (requested ip newRequestFails w).
Proof.
  destruct w as [[cfg lk pd st rid] tms tr].
  unfold updateDNS_request, requested, requestOf. run_m.
  destruct (String.eqb rid "") eqn:E; destruct newRequestFails; cbn;
    rewrite <- ?app_assoc; cbn; rewrite ?E; reflexivity.
Qed.

Lemma updateDNS_response_eq (o : HttpOutcome DNSRecord.t) (w : World) :
  updateDNS_response o w = Val (updateError o) (answeredWorld o w).
Proof.
  destruct w as [[cfg lk pd st rid] tms tr].
  unfold updateDNS_response, answeredWorld. run_m.
  destruct (String.eqb rid "") eqn:E;
    destruct o as [| | | |[] errs r]; cbn; rewrite ?E; reflexivity.
Qed.

#[local] Arguments updateDNS_request : simpl never.

#[local] Arguments updateDNS_response : simpl never.

Lemma endCallback_eq (ip : string) (o : HttpOutcome DNSRecord.t) (w : World) :
  endCallback ip o w = Val tt (settled ip o (answeredWorld o w)).
Proof.
  unfold endCallback. rewrite bind_eq, updateDNS_response_eq. unfold settled.
  destruct (updateError o); reflexivity.
Qed.

Section Halves.
Variables (look : IfaceLookup) (newRequestFails : bool) (w : World).

Lemma beginCallback_panic :
  getPublicIPv6 look w = Panic -> beginCallback look newRequestFails w = Panic.
Proof. intros H. unfold beginCallback. rewrite bind_eq, H. reflexivity. Qed.

Lemma beginCallback_probe_error (e : Error) :
  getPublicIPv6 look w = Val (Err e) w ->
  beginCallback look newRequestFails w
    = Val None (withPending "" (logged (LogErrorVerifying e) w)).
Proof. intros H. unfold beginCallback. rewrite bind_eq, H. reflexivity. Qed.

Variable ip : string.
Hypothesis Hprobe : getPublicIPv6 look w = Val (Ok ip) w.

Lemma beginCallback_changed :
  ip <> pendingIP (svc w) ->
  beginCallback look newRequestFails w
    = Val None (started (withPending ip (logged LogChangedDuringWindow w))).
Proof.
  intros H. unfold beginCallback. rewrite bind_eq, Hprobe. run_m.
  apply String.eqb_neq in H. rewrite H. cbn. rewrite startStabilityTimer_eq. reflexivity.
Qed.

Lemma beginCallback_stable :
  ip = pendingIP (svc w) ->
  beginCallback look newRequestFails w =
    if newRequestFails
    then Val None (withPending ""
                     (logged (LogFailedUpdate ErrNewRequest)
                        (requested ip true
                           (logged (LogStable (StabilityDelay (config (svc w)))) w))))
    else Val (Some ip)
             (requested ip false (logged (LogStable (StabilityDelay (config (svc w)))) w)).
Proof.
  intros H. unfold beginCallback. rewrite bind_eq, Hprobe. run_m.
  apply String.eqb_eq in H. rewrite H. cbn.
  rewrite updateDNS_request_eq.
  destruct newRequestFails; reflexivity.
Qed.
End Halves.

(** The two halves, run one after the other, are the callback. *)
Lemma stabilityCallback_split (look : IfaceLookup) (o : HttpOutcome DNSRecord.t)
    (w : World) :
  stabilityCallback look o w =
    match beginCallback look (negb (answered o)) w with
    | Val (Some ip) w1 => endCallback ip o w1
    | Val None w1 => Val tt w1
    | Panic => Panic
    end.
Proof.
  destruct (getPublicIPv6_cases look w) as [E|[[e E]|(ip & E & Hne)]].
  - rewrite (stabilityCallback_panic _ _ _ E), (beginCallback_panic _ _ _ E). reflexivity.
  - rewrite (stabilityCallback_probe_error _ _ _ _ E), (beginCallback_probe_error _ _ _ _ E).
    reflexivity.
  - destruct (String.eqb_spec ip (pendingIP (svc w))) as [Hp|Hp].
    + rewrite (stabilityCallback_stable _ _ _ _ E Hp), (beginCallback_stable _ _ _ _ E Hp).
      destruct w as [[cfg lk pd st rid] tms tr].
      destruct o as [| | | |[] errs r]; cbn; rewrite ?endCallback_eq; try reflexivity.
    + rewrite (stabilityCallback_changed _ _ _ _ E Hp), (beginCallback_changed _ _ _ _ E Hp).
      reflexivity.
Qed.

(** *** The timer invariant when the callback waits for the provider *)







(** [main] exits at startup exactly on these three failures, each logged. *)
Lemma main_Exited (file : ConfigFile) (fetch : HttpOutcome (list DNSRecord.t))
    (first : IfaceLookup) (code : Z) (tr : list Effect) :
  main file fetch first = Exited code tr <->
  code = 1%Z
  /\ ((exists e, loadConfig file = Err e /\ tr = [Log (FatalLoadConfig e)])
      \/ (exists config e, loadConfig file = Ok config
                           /\ validateConfig config = Some e
                           /\ tr = [Log (FatalInvalidConfig e)])
      \/ (exists config e, loadConfig file = Ok config
                           /\ validateConfig config = None
                           /\ fetchError fetch = Some e
                           /\ tr = (trace (fetched fetch (newService config))
                                    ++ [Log (FatalFetchRecord e)])%list)).
Proof.
  unfold main. destruct (loadConfig file) as [config|e].
  2:{ split.
      - intros [= <- <-]. split; [reflexivity|]. left. eauto.
      - intros [-> [(e' & [= <-] & ->)|[(c & e' & [=] & _)|(c & e' & [=] & _)]]].
        reflexivity. }
  destruct (validateConfig config) as [e|] eqn:Ev.
  { split.
    - intros [= <- <-]. split; [reflexivity|]. right; left. eauto.
    - intros [-> [(e' & [=] & _)|[(c & e' & [= <-] & Hv & ->)|(c & e' & [= <-] & Hv & _)]]];
        congruence. }
  rewrite fetchRecordID_eq.
  destruct (fetchError fetch) as [e|] eqn:Ef.
  { split.
    - intros [= <- <-]. split; [reflexivity|]. right; right. exists config, e. auto.
    - intros [-> [(e' & [=] & _)|[(c & e' & [= <-] & Hv & _)|(c & e' & [= <-] & _ & [= <-] & ->)]]];
        [congruence | reflexivity]. }
  split.
  - match goal with |- proc_of ?r = _ -> _ => destruct r; discriminate end.
  - intros [_ [(e' & [=] & _)|[(c & e' & [= <-] & Hv & _)|(c & e' & _ & _ & [=] & _)]]].
    congruence.
Qed.

(** C5: at startup a lookup that finds no record is not an error: [main]
    does not exit, [recordID] stays empty and the first request of
    [updateDNS] is a create.  A lookup that finds records seeds [recordID] and
    [lastKnownIP] from the first one; when the initial check then observes
    that same address, nothing becomes pending, no timer exists, [updateDNS]
    is not called and the lookup is the only request sent. *)
Theorem startup_lookup_seeds_state (file : ConfigFile) (config : Config)
    (errors : list CFError) (r0 : DNSRecord.t) (rest : list DNSRecord.t)
    (first : IfaceLookup) :
  loadConfig file = Ok config -> validateConfig config = None ->
  (0 < seconds (PollInterval config))%Z ->
  probes first (DNSRecord.Content r0) ->
  (exists w,
      fetchRecordID (Response true errors []) (newService config) = Val None w
      /\ recordID (svc w) = "" /\ lastKnownIP (svc w) = ""
      /\ (forall ip, Method (requestOf (svc w) ip) = "POST"
                     /\ URL (requestOf (svc w) ip) = collectionURL config)
      /\ forall look code tr, main file (Response true errors []) look <> Exited code tr)
  /\ (exists w,
         fetchRecordID (Response true errors (r0 :: rest)) (newService config) = Val None w
         /\ recordID (svc w) = DNSRecord.ID r0
         /\ lastKnownIP (svc w) = DNSRecord.Content r0)
  /\ (exists w,
         main file (Response true errors (r0 :: rest)) first = Running w
         /\ recordID (svc w) = DNSRecord.ID r0
         /\ lastKnownIP (svc w) = DNSRecord.Content r0
         /\ pendingIP (svc w) = ""
         /\ timers w = []
         /\ upsertCalls (trace w) = []
         /\ httpRequests (trace w) = [lookupRequest (svc (newService config))]).
Proof.
  intros Hload Hvalid Hpos Hprobe. split; [|split].
  - exists (fetched (Response true errors []) (newService config)).
    split; [apply fetchRecordID_eq|].
    split; [reflexivity | split; [reflexivity | split; [intros ip; split; reflexivity|]]].
    intros look code tr Hexit. apply main_Exited in Hexit as [_ [H|[H|H]]].
    + destruct H as (e & He & _). congruence.
    + destruct H as (c & e & Hc & He & _). congruence.
    + destruct H as (c & e & _ & _ & He & _). discriminate.
  - exists (fetched (Response true errors (r0 :: rest)) (newService config)).
    split; [apply fetchRecordID_eq | split; reflexivity].
  - exists (booted config (Response true errors (r0 :: rest))).
    split; [|repeat split].
    apply main_Running. exists config.
    split; [exact Hload | split; [exact Hvalid | split; [reflexivity | split; [exact Hpos|]]]].
    apply checkAndUpdate_unchanged with (ip := DNSRecord.Content r0);
      [apply Hprobe | reflexivity | left; reflexivity].
Qed.


(** *** Failures *)

Lemma checkAndUpdate_Panic (look : IfaceLookup) (w : World) :
  checkAndUpdate look w = Panic -> getPublicIPv6 look w = Panic.
Proof.
  intros Hrun.
  destruct (getPublicIPv6_cases look w) as [E|[[e E]|(ip & E & Hne)]]; [exact E | |].
  - rewrite (checkAndUpdate_probe_error _ _ _ E) in Hrun. discriminate.
  - destruct (String.eqb_spec ip (lastKnownIP (svc w))) as [Hl|Hl].
    + destruct (String.eqb_spec (pendingIP (svc w)) "") as [Hp|Hp].
      { rewrite (checkAndUpdate_unchanged _ _ _ E Hl (or_introl Hp)) in Hrun. discriminate. }
      destruct (String.eqb_spec (pendingIP (svc w)) ip) as [Hq|Hq].
      { rewrite (checkAndUpdate_unchanged _ _ _ E Hl (or_intror Hq)) in Hrun. discriminate. }
      rewrite (checkAndUpdate_revert _ _ _ E Hl Hp Hq) in Hrun. discriminate.
    + destruct (String.eqb_spec ip (pendingIP (svc w))) as [Hp|Hp].
      { rewrite (checkAndUpdate_watching _ _ _ E Hl Hp) in Hrun. discriminate. }
      rewrite (checkAndUpdate_new _ _ _ E Hl Hp) in Hrun. discriminate.
Qed.

Lemma stabilityCallback_Panic (look : IfaceLookup) (o : HttpOutcome DNSRecord.t) (w : World) :
  stabilityCallback look o w = Panic -> getPublicIPv6 look w = Panic.
Proof.
  intros Hrun.
  destruct (getPublicIPv6_cases look w) as [E|[[e E]|(ip & E & Hne)]]; [exact E | |].
  - rewrite (stabilityCallback_probe_error _ _ _ _ E) in Hrun. discriminate.
  - destruct (String.eqb_spec ip (pendingIP (svc w))) as [Hp|Hp].
    + rewrite (stabilityCallback_stable _ _ _ _ E Hp) in Hrun. discriminate.
    + rewrite (stabilityCallback_changed _ _ _ _ E Hp) in Hrun. discriminate.
Qed.

(** The running process exits only on a termination signal. *)
Lemma step_Exited (w : World) (ev : Event) (code : Z) (tr : list Effect) :
  step w ev = Some (Exited code tr) -> ev = Signal /\ code = 0%Z.
Proof.
  destruct ev as [look|t look o|]; cbn.
  - destruct (checkAndUpdate look w); discriminate.
  - destruct (timers w !! t) as [[d []]|]; try discriminate.
    destruct (stabilityCallback look o (expire t w)); discriminate.
  - destruct (shutdown w); [intros [= <- _]; auto | discriminate].
Qed.

(** The running process panics only inside a probe of the interface. *)
Lemma step_Panicked (w : World) (ev : Event) :
  step w ev = Some Panicked ->
  exists look w0, getPublicIPv6 look w0 = Panic
                  /\ (ev = Tick look \/ exists t o, ev = TimerFires t look o).
Proof.
  destruct ev as [look|t look o|]; cbn.
  - destruct (checkAndUpdate look w) eqn:E; [discriminate|]. intros _.
    exists look, w. split; [apply checkAndUpdate_Panic, E | auto].
  - destruct (timers w !! t) as [[d []]|]; try discriminate.
    destruct (stabilityCallback look o (expire t w)) eqn:E; [discriminate|]. intros _.
    exists look, (expire t w). split; [eapply stabilityCallback_Panic, E | eauto].
  - unfold shutdown. run_m. destruct (stabilityTimer (svc w)); discriminate.
Qed.

(** C6, as amended: a failure of [updateDNS] in the expiry handler, whether
    the provider rejects the request or the exchange fails, is logged and the
    process keeps running with [lastKnownIP] unchanged; the running process
    exits only on a termination signal and panics only inside a probe.  At
    startup, a configuration that cannot be loaded, an invalid configuration
    and any failure of the one-time lookup are fatal, each before the first
    poll. *)
Theorem failures_fatal_only_at_startup (w : World) (t : nat) (look : IfaceLookup)
    (o : HttpOutcome DNSRecord.t) (B : string) (e : Error) :
  isScheduled w t = true -> pendingIP (svc w) = B -> probes look B ->
  updateError o = Some e ->
  (exists w',
      step w (TimerFires t look o) = Some (Running w')
      /\ last (trace w') = Some (Log (LogFailedUpdate e))
      /\ lastKnownIP (svc w') = lastKnownIP (svc w)
      /\ pendingIP (svc w') = "")
  /\ (forall ev code tr, step w ev = Some (Exited code tr) -> ev = Signal /\ code = 0%Z)
  /\ (forall ev, step w ev = Some Panicked ->
      exists look' w0, getPublicIPv6 look' w0 = Panic
                       /\ (ev = Tick look' \/ exists t' o', ev = TimerFires t' look' o'))
  /\ (forall file fetch first code tr,
         main file fetch first = Exited code tr <->
         code = 1%Z
         /\ ((exists e', loadConfig file = Err e' /\ tr = [Log (FatalLoadConfig e')])
             \/ (exists config e', loadConfig file = Ok config
                                   /\ validateConfig config = Some e'
                                   /\ tr = [Log (FatalInvalidConfig e')])
             \/ (exists config e', loadConfig file = Ok config
                                   /\ validateConfig config = None
                                   /\ fetchError fetch = Some e'
                                   /\ tr = (trace (fetched fetch (newService config))
                                            ++ [Log (FatalFetchRecord e')])%list))).
Proof.
  intros Ht Hp Hprobe Herr.
  split; [|split; [apply step_Exited | split; [apply step_Panicked | apply main_Exited]]].
  destruct (step_expiry_stable w t look o B Ht Hp Hprobe)
    as (w' & Hstep & _ & _ & Hl & Hp' & _ & _ & _ & Hlast).
  exists w'. rewrite Herr in Hlast.
  assert (Hs : succeeded o = false).
  { destruct (succeeded o) eqn:E; [|reflexivity].
    apply updateError_succeeded in E. congruence. }
  rewrite Hs in Hl. auto.
Qed.

(** ** Configuration *)

(** The configuration [loadConfig] returns for a parsed document. *)
Lemma loadConfig_Document (y : YamlConfig) :
  loadConfig (Document y) =
    Ok {| Interface := default "" (y_interface y);
          PollInterval := nonzeroOr 30 (y_poll_interval y);
          StabilityDelay := nonzeroOr 5 (y_stability_delay y);
          CloudFlare :=
            {| APIToken := default "" (y_cloudflare y ≫= y_api_token);
               ZoneID := default "" (y_cloudflare y ≫= y_zone_id);
               RecordName := default "" (y_cloudflare y ≫= y_record_name);
               TTL := nonzeroOr 1 (suppliedTTL y);
               Proxied := default false (y_cloudflare y ≫= y_proxied) |} |}.
Proof.
  destruct y as [yi [pi|] [sd|] [[tok zone name [ttl|] prox]|]];
    unfold loadConfig, unmarshal, unmarshalCloudFlare, nonzeroOr, suppliedTTL; cbn;
    repeat match goal with
           | |- context [Z.eqb ?a 0] => is_var a; destruct (Z.eqb a 0) eqn:?; cbn
           end;
    reflexivity.
Qed.

(** C7, as amended: [loadConfig] uses a supplied poll interval, stability
    delay or TTL exactly when it is not zero, so for every poll interval
    >= 1, stability delay >= 1 and TTL >= 1; a field that is not supplied or
    is supplied as 0 gets its default (30, 5, 1).  A configured stability
    delay of 0 is replaced by 5, and the loaded stability delay is the
    duration of every stability timer. *)
Theorem loadConfig_defaults (y : YamlConfig) :
  exists cfg,
    loadConfig (Document y) = Ok cfg
    /\ PollInterval cfg = nonzeroOr 30 (y_poll_interval y)
    /\ StabilityDelay cfg = nonzeroOr 5 (y_stability_delay y)
    /\ TTL (CloudFlare cfg) = nonzeroOr 1 (suppliedTTL y)
    /\ (inRange y -> y_stability_delay y <> Some 0%Z -> usesSupplied y cfg)
    /\ (y_stability_delay y = Some 0%Z -> StabilityDelay cfg = 5%Z)
    /\ (forall w, config (svc w) = cfg ->
        exists w', startStabilityTimer w = Val tt w'
                   /\ timers w' !! length (timers w)
                      = Some {| duration := seconds (StabilityDelay cfg);
                                status := Scheduled |}).
Proof.
  eexists. split; [apply loadConfig_Document|]. cbn.
  split; [reflexivity | split; [reflexivity | split; [reflexivity|]]].
  split; [|split].
  - intros (Hpi & Hsd & Httl) Hnz. unfold usesSupplied, nonzeroOr; cbn.
    split; [|split].
    + destruct (y_poll_interval y) as [v|]; [|reflexivity]. cbn.
      specialize (Hpi v eq_refl). destruct (Z.eqb_spec v 0); [lia | reflexivity].
    + destruct (y_stability_delay y) as [v|]; [|reflexivity]. cbn.
      destruct (Z.eqb_spec v 0); [congruence | reflexivity].
    + destruct (suppliedTTL y) as [v|]; [|reflexivity]. cbn.
      specialize (Httl v eq_refl). destruct (Z.eqb_spec v 0); [lia | reflexivity].
  - intros ->. reflexivity.
  - intros w Hw. exists (started w). split; [apply startStabilityTimer_eq|].
    cbn. rewrite lookup_app_r by (rewrite length_stopPtr; lia).
    rewrite length_stopPtr, Nat.sub_diag, Hw. reflexivity.
Qed.

Example stabilizing_reached :
  main (Document exampleYaml) (Response true [] [recordA]) lookB = Running stabilizing.
Proof. vm_compute. reflexivity. Qed.

Example firstDetection_reached :
  main (Document exampleYaml) (Response true [] []) lookB = Running firstDetection.
Proof. vm_compute. reflexivity. Qed.

Example lookA_probes : probes lookA "2001:db8::1".
Proof. intros w. reflexivity. Qed.

Example lookB_probes : probes lookB "2001:db8::2".
Proof. intros w. reflexivity. Qed.

Example stabilizing_inv : timerInv stabilizing.
Proof.
  split.
  - intros [|t] Ht; [reflexivity | discriminate Ht].
  - split; [intros _; exists 0; reflexivity | intros _; discriminate].
Qed.

Example String_examples :
  IP.String_ addrA = "2001:db8::1"
  /\ IP.String_ [x20; x01; x0d; xb8; x00; x00; x00; x01;
                 x00; x00; x00; x00; x00; x00; x00; x01] = "2001:db8:0:1::1"
  /\ IP.String_ IP.IPv6unspecified = "::"
  /\ IP.String_ (IP.IPv4 xc0 xa8 x01 x0a) = "192.168.1.10".
Proof. repeat split; reflexivity. Qed.

(** The interface of [addrsA]: the IPv4, loopback, link-local and
    unique-local entries are passed over. *)
Example getPublicIPv6_example :
  getPublicIPv6 lookA stabilizing = Val (Ok "2001:db8::1") stabilizing.
Proof. reflexivity. Qed.

Example getPublicIPv6_no_public_address :
  getPublicIPv6 (Addrs [IPNet addrLinkLocal mask64; IPNet addrULA mask64]) stabilizing
  = Val (Err (ErrNoPublicIPv6 "eth0")) stabilizing.
Proof. reflexivity. Qed.

(** An IPv4-mapped address is an IPv4 address to [To4]: it is passed over. *)
Example getPublicIPv6_skips_v4_mapped :
  getPublicIPv6 (Addrs [IPNet (IP.IPv4 x08 x08 x08 x08) mask64; IPNet addrB mask64]) stabilizing
  = Val (Ok "2001:db8::2") stabilizing.
Proof. reflexivity. Qed.

(** [ip[0]] on an empty slice: the index is out of range. *)
Example getPublicIPv6_empty_address_panics :
  getPublicIPv6 (Addrs [IPNet [] []; IPNet addrA mask64]) stabilizing = Panic.
Proof. reflexivity. Qed.

(** ** The theorems at the example inputs *)

Ltac concrete_inv :=
  split;
  [ intros [|?] Ht; [reflexivity | discriminate Ht]
  | split; [intros _; exists 0; reflexivity | intros _; discriminate] ].

Lemma getPublicIPv6_first_qualifying_witness :
  nonemptyIPs addrsA = true
  /\ ((exists pre ip mask post,
          addrsA = (pre ++ IPNet ip mask :: post)%list
          /\ Forall (fun a => ~ qualifies a) pre
          /\ qualifies (IPNet ip mask)
          /\ getPublicIPv6 lookA stabilizing = Val (Ok (IP.String_ ip)) stabilizing)
      \/ (Forall (fun a => ~ qualifies a) addrsA
          /\ getPublicIPv6 lookA stabilizing
             = Val (Err (ErrNoPublicIPv6 (Interface (config (svc stabilizing))))) stabilizing)).
Proof.
  split; [reflexivity|].
  exact (getPublicIPv6_first_qualifying lookA stabilizing eq_refl).
Defined.

Lemma expiry_stable_upserts_once_witness :
  timerInv stabilizing
  /\ isScheduled stabilizing 0 = true
  /\ probes lookB "2001:db8::2"
  /\ exists w',
      step stabilizing (TimerFires 0 lookB (Response true [] recordA)) = Some (Running w')
      /\ upsertCalls (trace w') = ["2001:db8::2"]
      /\ lastKnownIP (svc w') = "2001:db8::2"
      /\ pendingIP (svc w') = ""
      /\ noneScheduled w'.
Proof.
  assert (Hinv : timerInv stabilizing) by concrete_inv.
  assert (Hprobe : probes lookB "2001:db8::2") by (intros w; reflexivity).
  split; [exact Hinv | split; [reflexivity | split; [exact Hprobe|]]].
  destruct (expiry_stable_upserts_once stabilizing 0 lookB (Response true [] recordA)
              "2001:db8::1" "2001:db8::2" Hinv eq_refl eq_refl eq_refl Hprobe)
    as (w' & Hstep & Hu & _ & _ & Hl & Hp & Hn).
  exists w'. auto.
Defined.

Lemma revert_cancels_pending_witness :
  timerInv stabilizing
  /\ isScheduled stabilizing 0 = true
  /\ "2001:db8::2" <> "2001:db8::1"
  /\ probes lookA "2001:db8::1"
  /\ exists w',
      step stabilizing (Tick lookA) = Some (Running w')
      /\ isScheduled w' 0 = false
      /\ pendingIP (svc w') = ""
      /\ upsertCalls (trace w') = []
      /\ httpRequests (trace w') = httpRequests (trace stabilizing).
Proof.
  assert (Hinv : timerInv stabilizing) by concrete_inv.
  assert (Hprobe : probes lookA "2001:db8::1") by (intros w; reflexivity).
  assert (Hne : "2001:db8::2" <> "2001:db8::1") by discriminate.
  split; [exact Hinv | split; [reflexivity | split; [exact Hne | split; [exact Hprobe|]]]].
  destruct (revert_cancels_pending stabilizing 0 lookA "2001:db8::1" "2001:db8::2"
              Hinv eq_refl eq_refl eq_refl Hne Hprobe)
    as (w' & Hstep & Hs & _ & Hp & _ & Hu & Hh & _).
  exists w'. auto.
Defined.

Lemma failed_upsert_is_retried_witness :
  isScheduled stabilizing 0 = true
  /\ "2001:db8::2" <> "2001:db8::1"
  /\ probes lookB "2001:db8::2"
  /\ succeeded (DoError : HttpOutcome DNSRecord.t) = false
  /\ exists w1 w2 w3 t2,
      step stabilizing (TimerFires 0 lookB DoError) = Some (Running w1)
      /\ lastKnownIP (svc w1) = "2001:db8::1"
      /\ step w1 (Tick lookB) = Some (Running w2)
      /\ step w2 (TimerFires t2 lookB (Response true [] recordA)) = Some (Running w3)
      /\ upsertCalls (trace w3) = ["2001:db8::2"; "2001:db8::2"].
Proof.
  assert (Hprobe : probes lookB "2001:db8::2") by (intros w; reflexivity).
  assert (Hne : "2001:db8::2" <> "2001:db8::1") by discriminate.
  split; [reflexivity | split; [exact Hne | split; [exact Hprobe | split; [reflexivity|]]]].
  destruct (failed_upsert_is_retried stabilizing 0 lookB lookB lookB DoError
              (Response true [] recordA) "2001:db8::1" "2001:db8::2"
              eq_refl eq_refl eq_refl Hne Hprobe eq_refl Hprobe Hprobe)
    as (w1 & w2 & w3 & t2 & H1 & H2 & _ & H3 & _ & _ & _ & _ & H4 & H5).
  exists w1, w2, w3, t2. auto.
Defined.

Lemma expiry_republishes_confirmed_witness :
  isScheduled stabilizing 0 = true
  /\ "2001:db8::2" <> "2001:db8::1"
  /\ probes lookA "2001:db8::1"
  /\ exists w1 w2 t1,
      step stabilizing (TimerFires 0 lookA DoError) = Some (Running w1)
      /\ pendingIP (svc w1) = "2001:db8::1"
      /\ lastKnownIP (svc w1) = "2001:db8::1"
      /\ step w1 (TimerFires t1 lookA (Response true [] recordA)) = Some (Running w2)
      /\ upsertCalls (trace w2) = ["2001:db8::1"].
Proof.
  assert (Hprobe : probes lookA "2001:db8::1") by (intros w; reflexivity).
  assert (Hne : "2001:db8::2" <> "2001:db8::1") by discriminate.
  split; [reflexivity | split; [exact Hne | split; [exact Hprobe|]]].
  destruct (expiry_republishes_confirmed stabilizing 0 lookA DoError
              (Response true [] recordA) "2001:db8::1" "2001:db8::2"
              eq_refl eq_refl eq_refl Hne Hprobe)
    as (w1 & w2 & t1 & H1 & H2 & H3 & _ & _ & _ & H4 & H5 & _).
  exists w1, w2, t1. auto.
Defined.



Lemma startup_lookup_seeds_state_witness :
  loadConfig (Document exampleYaml) = Ok exampleConfig
  /\ validateConfig exampleConfig = None
  /\ (0 < seconds (PollInterval exampleConfig))%Z
  /\ probes lookA (DNSRecord.Content recordA)
  /\ exists w,
      main (Document exampleYaml) (Response true [] [recordA]) lookA = Running w
      /\ recordID (svc w) = "abc123"
      /\ lastKnownIP (svc w) = "2001:db8::1"
      /\ pendingIP (svc w) = ""
      /\ timers w = []
      /\ upsertCalls (trace w) = [].
Proof.
  assert (Hprobe : probes lookA (DNSRecord.Content recordA)) by (intros w; reflexivity).
  assert (Hpos : (0 < seconds (PollInterval exampleConfig))%Z) by reflexivity.
  split; [reflexivity | split; [reflexivity | split; [exact Hpos | split; [exact Hprobe|]]]].
  destruct (startup_lookup_seeds_state (Document exampleYaml) exampleConfig [] recordA []
              lookA eq_refl eq_refl Hpos Hprobe)
    as (_ & _ & w & H1 & H2 & H3 & H4 & H5 & H6 & _).
  exists w. auto 10.
Defined.


Lemma failures_fatal_only_at_startup_witness :
  isScheduled stabilizing 0 = true
  /\ probes lookB "2001:db8::2"
  /\ updateError (Response false [authError] recordA)
     = Some (ErrCloudFlareAPI "Authentication error")
  /\ exists w',
      step stabilizing (TimerFires 0 lookB (Response false [authError] recordA))
        = Some (Running w')
      /\ last (trace w') = Some (Log (LogFailedUpdate (ErrCloudFlareAPI "Authentication error")))
      /\ lastKnownIP (svc w') = "2001:db8::1".
Proof.
  assert (Hprobe : probes lookB "2001:db8::2") by (intros w; reflexivity).
  split; [reflexivity | split; [exact Hprobe | split; [reflexivity|]]].
  destruct (failures_fatal_only_at_startup stabilizing 0 lookB
              (Response false [authError] recordA) "2001:db8::2"
              (ErrCloudFlareAPI "Authentication error") eq_refl eq_refl Hprobe eq_refl)
    as ((w' & H1 & H2 & H3 & _) & _).
  exists w'. auto.
Defined.

Lemma loadConfig_defaults_witness :
  inRange exampleYaml
  /\ y_stability_delay exampleYaml <> Some 0%Z
  /\ exists cfg, loadConfig (Document exampleYaml) = Ok cfg /\ usesSupplied exampleYaml cfg.
Proof.
  assert (Hr : inRange exampleYaml).
  { split; [|split]; intros v [= <-]; lia. }
  assert (Hnz : y_stability_delay exampleYaml <> Some 0%Z) by discriminate.
  split; [exact Hr | split; [exact Hnz|]].
  destruct (loadConfig_defaults exampleYaml) as (cfg & H1 & _ & _ & _ & H2 & _).
  exists cfg. split; [exact H1 | exact (H2 Hr Hnz)].
Defined.

(** C6, as stated, fails: with a valid configuration, a transport failure
    and a provider error of the startup lookup each end the process. *)
Lemma startup_lookup_failure_is_fatal :
  loadConfig (Document exampleYaml) = Ok exampleConfig
  /\ validateConfig exampleConfig = None
  /\ main (Document exampleYaml) DoError lookA
     = Exited 1 [HttpDo (lookupRequest (svc (newService exampleConfig)));
                 Log (FatalFetchRecord ErrAPIRequestFailed)]
  /\ main (Document exampleYaml) (Response false [authError] []) lookA
     = Exited 1 [HttpDo (lookupRequest (svc (newService exampleConfig)));
                 Log (FatalFetchRecord (ErrCloudFlareAPIErrors [authError]))].
Proof. repeat split; vm_compute; reflexivity. Qed.

(** C7, as stated, fails: a stability delay of 0 lies in the accepted range
    and is supplied, yet the loaded configuration has 5. *)
Lemma zero_stability_delay_is_replaced :
  inRange zeroDelayYaml
  /\ y_stability_delay zeroDelayYaml = Some 0%Z
  /\ loadConfig (Document zeroDelayYaml) = Ok exampleConfig
  /\ StabilityDelay exampleConfig = 5%Z
  /\ ~ usesSupplied zeroDelayYaml exampleConfig.
Proof.
  split; [|split; [reflexivity | split; [reflexivity | split; [reflexivity|]]]].
  - split; [|split]; intros v [= <-]; lia.
  - intros (_ & H & _). discriminate H.
Qed.

(** * Further properties of the program *)

(** ** Configuration and startup *)

Lemma validateConfig_None_iff (cfg : Config) :
  validateConfig cfg = None
  <-> Interface cfg <> "" /\ APIToken (CloudFlare cfg) <> ""
      /\ ZoneID (CloudFlare cfg) <> "" /\ RecordName (CloudFlare cfg) <> "".
Proof.
  unfold validateConfig.
  destruct (String.eqb_spec (Interface cfg) "") as [E1|E1]; [split; [discriminate | tauto]|].
  destruct (String.eqb_spec (APIToken (CloudFlare cfg)) "") as [E2|E2];
    [split; [discriminate | tauto]|].
  destruct (String.eqb_spec (ZoneID (CloudFlare cfg)) "") as [E3|E3];
    [split; [discriminate | tauto]|].
  destruct (String.eqb_spec (RecordName (CloudFlare cfg)) "") as [E4|E4];
    [split; [discriminate | tauto]|].
  split; [tauto | reflexivity].
Qed.

(** [validateConfig] accepts a configuration exactly when its four required
    fields are not empty, and otherwise names the first empty one in the
    order interface, api_token, zone_id, record_name. *)
Theorem validateConfig_required_fields (cfg : Config) :
  (validateConfig cfg = None
   <-> Interface cfg <> "" /\ APIToken (CloudFlare cfg) <> ""
       /\ ZoneID (CloudFlare cfg) <> "" /\ RecordName (CloudFlare cfg) <> "")
  /\ (Interface cfg = "" -> validateConfig cfg = Some (ErrRequired "interface"))
  /\ (Interface cfg <> "" -> APIToken (CloudFlare cfg) = "" ->
      validateConfig cfg = Some (ErrRequired "cloudflare.api_token"))
  /\ (Interface cfg <> "" -> APIToken (CloudFlare cfg) <> "" ->
      ZoneID (CloudFlare cfg) = "" ->
      validateConfig cfg = Some (ErrRequired "cloudflare.zone_id"))
  /\ (Interface cfg <> "" -> APIToken (CloudFlare cfg) <> "" ->
      ZoneID (CloudFlare cfg) <> "" -> RecordName (CloudFlare cfg) = "" ->
      validateConfig cfg = Some (ErrRequired "cloudflare.record_name")).
Proof.
  split; [apply validateConfig_None_iff|].
  unfold validateConfig.
  destruct (String.eqb_spec (Interface cfg) "") as [E1|E1];
    [|destruct (String.eqb_spec (APIToken (CloudFlare cfg)) "") as [E2|E2];
      [|destruct (String.eqb_spec (ZoneID (CloudFlare cfg)) "") as [E3|E3];
        [|destruct (String.eqb_spec (RecordName (CloudFlare cfg)) "") as [E4|E4]]]];
    repeat split; intros; congruence.
Qed.

Lemma nonempty_default (o : option string) :
  default "" o <> "" <-> exists v, o = Some v /\ v <> "".
Proof.
  destruct o as [v|]; cbn.
  - split; [eauto | intros (v' & [= <-] & H); exact H].
  - split; [congruence | intros (v' & [=] & _)].
Qed.

(** A parsed document passes [loadConfig] and [validateConfig] exactly when
    [interface] and the three cloudflare keys are supplied and not empty;
    the defaults of [loadConfig] play no part in it. *)
Theorem document_accepted_iff (y : YamlConfig) :
  exists cfg,
    loadConfig (Document y) = Ok cfg
    /\ (validateConfig cfg = None <-> requiredKeys y).
Proof.
  eexists. split; [apply loadConfig_Document|].
  rewrite validateConfig_None_iff.
  cbn. rewrite !nonempty_default. unfold requiredKeys.
  destruct (y_cloudflare y) as [yc|]; cbn.
  - split.
    + intros (Hi & (tok & Ht & Ht') & (zone & Hz & Hz') & (name & Hn & Hn')).
      split; [exact Hi|]. exists yc, tok, zone, name. auto 10.
    + intros (Hi & yc' & tok & zone & name & [= <-] & Ht & Ht' & Hz & Hz' & Hn & Hn').
      split; [exact Hi|]. eauto 10.
  - split.
    + intros (_ & (tok & [=] & _) & _).
    + intros (_ & yc' & tok & zone & name & [=] & _).
Qed.

(** Without a configuration that loads and validates, [main] exits with
    status 1 and has sent nothing to the network. *)
Theorem main_rejects_before_network (file : ConfigFile)
    (fetch : HttpOutcome (list DNSRecord.t)) (first : IfaceLookup) :
  (forall cfg, loadConfig file = Ok cfg -> validateConfig cfg <> None) ->
  exists tr,
    main file fetch first = Exited 1 tr
    /\ httpRequests tr = [] /\ upsertCalls tr = [].
Proof.
  intros H. unfold main. destruct (loadConfig file) as [cfg|e].
  - specialize (H cfg eq_refl). destruct (validateConfig cfg) as [e|]; [|congruence].
    eexists. split; [reflexivity | split; reflexivity].
  - eexists. split; [reflexivity | split; reflexivity].
Qed.

Lemma main_rejects_before_network_witness :
  (forall cfg, loadConfig (Document noInterfaceYaml) = Ok cfg -> validateConfig cfg <> None)
  /\ exists tr,
      main (Document noInterfaceYaml) (Response true [] [recordA]) lookA = Exited 1 tr
      /\ httpRequests tr = [] /\ upsertCalls tr = [].
Proof.
  assert (H : forall cfg, loadConfig (Document noInterfaceYaml) = Ok cfg ->
                          validateConfig cfg <> None)
    by (intros cfg [= <-]; discriminate).
  split; [exact H|].
  exact (main_rejects_before_network (Document noInterfaceYaml)
           (Response true [] [recordA]) lookA H).
Defined.

(** As long as the product fits in 64 bits, [time.Duration(n) * time.Second]
    is [n] seconds in nanoseconds. *)
Lemma seconds_exact (n : Z) :
  (-9223372036 <= n <= 9223372036)%Z -> seconds n = (n * 1000000000)%Z.
Proof.
  intros H. unfold seconds, wrap64, Second.
  change (2 ^ 63)%Z with 9223372036854775808%Z.
  change (2 ^ 64)%Z with 18446744073709551616%Z.
  rewrite (Z.mod_small (n + 9223372036854775808)) by lia.
  replace (n + 9223372036854775808 - 9223372036854775808)%Z with n by lia.
  rewrite Z.mod_small by lia. lia.
Qed.

(** A negative poll interval passes [validateConfig]; after the startup
    lookup has succeeded, [time.NewTicker] panics on it.  A poll interval from
    1 up to 9223372036 seconds gives a ticker, and [main] goes on to the
    initial check. *)
Theorem poll_interval_reaches_ticker (file : ConfigFile) (cfg : Config)
    (fetch : HttpOutcome (list DNSRecord.t)) (first : IfaceLookup) :
  loadConfig file = Ok cfg -> validateConfig cfg = None -> fetchError fetch = None ->
  ((-9223372036 <= PollInterval cfg <= -1)%Z -> main file fetch first = Panicked)
  /\ ((1 <= PollInterval cfg <= 9223372036)%Z ->
      main file fetch first = proc_of (checkAndUpdate first (booted cfg fetch))).
Proof.
  intros Hl Hv Hf. unfold main. rewrite Hl, Hv, fetchRecordID_eq, Hf.
  rewrite !bind_eq. unfold newTicker.
  change (logPrintf (LogStarting (Interface cfg) (RecordName (CloudFlare cfg)))
            (fetched fetch (newService cfg)))
    with (Val tt (booted cfg fetch)).
  split; intros Hr; rewrite seconds_exact by lia.
  - destruct (Z.leb_spec (PollInterval cfg * 1000000000) 0); [reflexivity | lia].
  - destruct (Z.leb_spec (PollInterval cfg * 1000000000) 0); [lia | reflexivity].
Qed.

Lemma poll_interval_reaches_ticker_witness :
  loadConfig (Document negativePollYaml) = Ok (unmarshal negativePollYaml exampleConfig)
  /\ validateConfig (unmarshal negativePollYaml exampleConfig) = None
  /\ (-9223372036 <= PollInterval (unmarshal negativePollYaml exampleConfig) <= -1)%Z
  /\ main (Document negativePollYaml) (Response true [] [recordA]) lookA = Panicked.
Proof.
  assert (Hr : (-9223372036 <= PollInterval (unmarshal negativePollYaml exampleConfig) <= -1)%Z)
    by (cbn; lia).
  split; [reflexivity | split; [reflexivity | split; [exact Hr|]]].
  destruct (poll_interval_reaches_ticker (Document negativePollYaml)
              (unmarshal negativePollYaml exampleConfig)
              (Response true [] [recordA]) lookA eq_refl eq_refl eq_refl) as [H _].
  exact (H Hr).
Defined.

(** ** The prober *)

(** A probe changes nothing.  What it finds is never the empty string, the
    state machine's mark for "no address"; what it reports is one of its
    three errors, about the configured interface. *)
Theorem getPublicIPv6_pure (look : IfaceLookup) (w w' : World) (r : result string) :
  getPublicIPv6 look w = Val r w' ->
  w' = w
  /\ match r with
     | Ok ip => ip <> ""
     | Err e =>
         e = ErrInterfaceNotFound (Interface (config (svc w)))
         \/ e = ErrGettingAddresses (Interface (config (svc w)))
         \/ e = ErrNoPublicIPv6 (Interface (config (svc w)))
     end.
Proof.
  unfold getPublicIPv6, mbind, M_bind, getS, mret, M_ret, panic.
  destruct look as [| |addrs].
  - intros [= <- <-]. auto.
  - intros [= <- <-]. auto.
  - destruct (rangeAddrs addrs) as [ip| |] eqn:E; [| |discriminate].
    + intros [= <- <-]. split; [reflexivity|]. eapply rangeAddrs_nonempty, E.
    + intros [= <- <-]. auto.
Qed.

Lemma getPublicIPv6_pure_witness :
  getPublicIPv6 lookA stabilizing = Val (Ok "2001:db8::1") stabilizing
  /\ "2001:db8::1" <> "".
Proof.
  split; [reflexivity|].
  exact (proj2 (getPublicIPv6_pure lookA stabilizing stabilizing (Ok "2001:db8::1") eq_refl)).
Defined.

Lemma nonemptyIPs_app (a b : list Addr) :
  nonemptyIPs (a ++ b) = nonemptyIPs a && nonemptyIPs b.
Proof. unfold nonemptyIPs. apply forallb_app. Qed.

(** The loop panics exactly when it reaches a [*net.IPNet] with an empty
    address before any entry that passes the filters. *)
Theorem getPublicIPv6_panics_iff (addrs : list Addr) (w : World) :
  getPublicIPv6 (Addrs addrs) w = Panic
  <-> exists pre mask post,
      addrs = (pre ++ IPNet [] mask :: post)%list
      /\ nonemptyIPs pre = true
      /\ Forall (fun a => ~ qualifies a) pre.
Proof.
  assert (Hp : getPublicIPv6 (Addrs addrs) w = Panic <-> rangeAddrs addrs = IndexOutOfRange).
  { unfold getPublicIPv6, mbind, M_bind, getS, mret, M_ret, panic.
    destruct (rangeAddrs addrs); split; congruence. }
  rewrite Hp. clear Hp. induction addrs as [|a rest IH].
  - split; [discriminate|]. intros (pre & mask & post & E & _). destruct pre; discriminate.
  - destruct (nonemptyIPs [a]) eqn:Ha.
    + destruct (rangeAddrs_cons a rest Ha) as [(Hq & ip & mask & -> & E) | (Hnq & E)].
      * rewrite E. split; [discriminate|].
        intros ([|b pre] & m & post & Heq & Hne & Hall).
        { cbn in Heq. inversion Heq; subst. discriminate Ha. }
        cbn in Heq. inversion Heq; subst. inversion Hall; subst. contradiction.
      * rewrite E, IH. split.
        -- intros (pre & m & post & -> & Hne & Hall).
           exists (a :: pre), m, post. split; [reflexivity|]. split.
           ++ change (a :: pre) with ([a] ++ pre)%list.
              rewrite nonemptyIPs_app, Ha, Hne. reflexivity.
           ++ constructor; assumption.
        -- intros ([|b pre] & m & post & Heq & Hne & Hall).
           { cbn in Heq. injection Heq as -> _. discriminate Ha. }
           cbn in Heq. injection Heq as <- ->. exists pre, m, post.
           split; [reflexivity|]. split; [|inversion Hall; assumption].
           change (a :: pre) with ([a] ++ pre)%list in Hne.
           rewrite nonemptyIPs_app, Ha in Hne. exact Hne.
    + destruct a as [[|ip0 tl] mask|]; try discriminate Ha.
      split; [intros _ | reflexivity].
      exists [], mask, rest. split; [reflexivity | split; [reflexivity | constructor]].
Qed.

(** ** The state machine, rule by rule *)

Lemma probeFailed_spec (look : IfaceLookup) (w : World) :
  probeFailed look = true -> exists e, getPublicIPv6 look w = Val (Err e) w.
Proof.
  unfold probeFailed, getPublicIPv6, mbind, M_bind, getS, mret, M_ret.
  destruct look as [| |addrs]; [eauto | eauto |].
  destruct (rangeAddrs addrs); [discriminate | eauto | discriminate].
Qed.

Lemma no_qualifying_Exhausted (addrs : list Addr) :
  nonemptyIPs addrs = true -> Forall (fun a => ~ qualifies a) addrs ->
  rangeAddrs addrs = Exhausted.
Proof.
  intros Hne Hall.
  destruct (rangeAddrs_spec addrs Hne) as [(pre & ip & mask & post & -> & _ & Hq & _) | [_ E]];
    [|exact E].
  apply Forall_app in Hall as [_ Hall]. inversion Hall; subst. contradiction.
Qed.

(** Every way a poll can end. *)
Lemma checkAndUpdate_cases (look : IfaceLookup) (w w' : World) :
  checkAndUpdate look w = Val tt w' ->
  (exists e, getPublicIPv6 look w = Val (Err e) w /\ w' = logged (LogErrorGetting e) w)
  \/ exists ip,
      getPublicIPv6 look w = Val (Ok ip) w /\ ip <> ""
      /\ ((ip = lastKnownIP (svc w) /\ pendingIP (svc w) <> "" /\ pendingIP (svc w) <> ip
           /\ w' = cancelled (logged (LogReverted ip) w))
          \/ (ip = lastKnownIP (svc w) /\ (pendingIP (svc w) = "" \/ pendingIP (svc w) = ip)
              /\ w' = w)
          \/ (ip <> lastKnownIP (svc w) /\ ip = pendingIP (svc w) /\ w' = w)
          \/ (ip <> lastKnownIP (svc w) /\ ip <> pendingIP (svc w)
              /\ w' = started (withPending ip
                        (logged (if String.eqb (lastKnownIP (svc w)) "" then LogDetected ip
                                 else LogDetectedNew ip (lastKnownIP (svc w))) w)))).
Proof.
  intros Hrun.
  destruct (getPublicIPv6_cases look w) as [E|[[e E]|(ip & E & Hne)]].
  - rewrite (checkAndUpdate_panic _ _ E) in Hrun. discriminate.
  - rewrite (checkAndUpdate_probe_error _ _ _ E) in Hrun. injection Hrun as <-.
    left. eauto.
  - right. exists ip. split; [exact E | split; [exact Hne|]].
    destruct (String.eqb_spec ip (lastKnownIP (svc w))) as [Hl|Hl].
    + destruct (String.eqb_spec (pendingIP (svc w)) "") as [Hp|Hp].
      { rewrite (checkAndUpdate_unchanged _ _ _ E Hl (or_introl Hp)) in Hrun.
        injection Hrun as <-. right; left. auto. }
      destruct (String.eqb_spec (pendingIP (svc w)) ip) as [Hq|Hq].
      { rewrite (checkAndUpdate_unchanged _ _ _ E Hl (or_intror Hq)) in Hrun.
        injection Hrun as <-. right; left. auto. }
      rewrite (checkAndUpdate_revert _ _ _ E Hl Hp Hq) in Hrun. injection Hrun as <-.
      left. auto.
    + destruct (String.eqb_spec ip (pendingIP (svc w))) as [Hp|Hp].
      { rewrite (checkAndUpdate_watching _ _ _ E Hl Hp) in Hrun. injection Hrun as <-.
        right; right; left. auto. }
      rewrite (checkAndUpdate_new _ _ _ E Hl Hp) in Hrun. injection Hrun as <-.
      right; right; right. auto.
Qed.

(** Every way the expiry handler can end. *)
Lemma stabilityCallback_cases (look : IfaceLookup) (o : HttpOutcome DNSRecord.t)
    (w w' : World) :
  stabilityCallback look o w = Val tt w' ->
  (exists e, getPublicIPv6 look w = Val (Err e) w
             /\ w' = withPending "" (logged (LogErrorVerifying e) w))
  \/ exists ip,
      getPublicIPv6 look w = Val (Ok ip) w /\ ip <> ""
      /\ ((ip <> pendingIP (svc w)
           /\ w' = started (withPending ip (logged LogChangedDuringWindow w)))
          \/ (ip = pendingIP (svc w)
              /\ w' = settled ip o
                        (updated ip o
                           (logged (LogStable (StabilityDelay (config (svc w)))) w)))).
Proof.
  intros Hrun.
  destruct (getPublicIPv6_cases look w) as [E|[[e E]|(ip & E & Hne)]].
  - rewrite (stabilityCallback_panic _ _ _ E) in Hrun. discriminate.
  - rewrite (stabilityCallback_probe_error _ _ _ _ E) in Hrun. injection Hrun as <-.
    left. eauto.
  - right. exists ip. split; [exact E | split; [exact Hne|]].
    destruct (String.eqb_spec ip (pendingIP (svc w))) as [Hp|Hp].
    + rewrite (stabilityCallback_stable _ _ _ _ E Hp) in Hrun. injection Hrun as <-.
      right. auto.
    + rewrite (stabilityCallback_changed _ _ _ _ E Hp) in Hrun. injection Hrun as <-.
      left. auto.
Qed.

(** Rule 1: when the interface is missing, its addresses cannot be listed,
    or none of them qualifies, a poll writes one log line and changes nothing
    else: the confirmed and the pending address, the timer and the record
    identifier stay as they are. *)
Theorem poll_probe_failure_keeps_state (w : World) (look : IfaceLookup) :
  look = NoSuchInterface \/ look = AddrsFail
  \/ (exists addrs, look = Addrs addrs /\ nonemptyIPs addrs = true
                    /\ Forall (fun a => ~ qualifies a) addrs) ->
  exists e w',
    step w (Tick look) = Some (Running w')
    /\ svc w' = svc w /\ timers w' = timers w
    /\ trace w' = (trace w ++ [Log (LogErrorGetting e)])%list.
Proof.
  intros H.
  assert (Hf : probeFailed look = true).
  { destruct H as [->|[->|(addrs & -> & Hne & Hall)]]; [reflexivity | reflexivity |].
    cbn. rewrite (no_qualifying_Exhausted addrs Hne Hall). reflexivity. }
  destruct (probeFailed_spec look w Hf) as [e E].
  exists e, (logged (LogErrorGetting e) w).
  split; [|repeat split].
  apply step_Tick, checkAndUpdate_probe_error, E.
Qed.

Lemma poll_probe_failure_keeps_state_witness :
  exists e w',
    step stabilizing (Tick NoSuchInterface) = Some (Running w')
    /\ svc w' = svc stabilizing /\ timers w' = timers stabilizing
    /\ trace w' = (trace stabilizing ++ [Log (LogErrorGetting e)])%list.
Proof.
  exact (poll_probe_failure_keeps_state stabilizing NoSuchInterface (or_introl eq_refl)).
Defined.

(** Case (a) of the expiry handler: when the re-probe fails, the candidate
    is dropped without a call of [updateDNS]; no timer is left scheduled
    ([stabilityTimer] still points to the fired one), and the next poll that
    observes an address other than the confirmed one starts a new timer. *)
Theorem expiry_probe_failure_abandons (w : World) (t : nat) (look : IfaceLookup)
    (o : HttpOutcome DNSRecord.t) :
  timerInv w -> isScheduled w t = true -> probeFailed look = true ->
  exists e w',
    step w (TimerFires t look o) = Some (Running w')
    /\ pendingIP (svc w') = ""
    /\ lastKnownIP (svc w') = lastKnownIP (svc w)
    /\ recordID (svc w') = recordID (svc w)
    /\ stabilityTimer (svc w') = Some t
    /\ noneScheduled w'
    /\ trace w' = (trace w ++ [Log (LogErrorVerifying e)])%list
    /\ forall look2 B,
        probes look2 B -> B <> lastKnownIP (svc w) ->
        exists w2,
          step w' (Tick look2) = Some (Running w2)
          /\ pendingIP (svc w2) = B
          /\ forall t', isScheduled w2 t' = true <-> t' = length (timers w).
Proof.
  intros [H1 H2] Ht Hf.
  destruct (probeFailed_spec look (expire t w) Hf) as [e E].
  pose proof (expire_noneScheduled w t H1 Ht) as Hn.
  exists e, (withPending "" (logged (LogErrorVerifying e) (expire t w))).
  split.
  { apply step_TimerFires. split; [exact Ht|].
    apply stabilityCallback_probe_error, E. }
  split; [reflexivity | split; [reflexivity | split; [reflexivity|]]].
  split; [apply H1, Ht | split; [exact Hn | split; [reflexivity|]]].
  intros look2 B Hprobe HB.
  eexists. split.
  { apply step_Tick. apply checkAndUpdate_new; [apply Hprobe | exact HB|].
    cbn. eapply probes_nonempty, Hprobe. }
  split; [reflexivity|].
  intros t'.
  match goal with |- isScheduled (started ?v) _ = true <-> _ =>
    rewrite (isScheduled_started v t') by (apply noneScheduled_onePointer; exact Hn) end.
  cbn. rewrite length_alter. reflexivity.
Qed.

Lemma expiry_probe_failure_abandons_witness :
  timerInv stabilizing
  /\ isScheduled stabilizing 0 = true
  /\ probeFailed AddrsFail = true
  /\ exists e w',
      step stabilizing (TimerFires 0 AddrsFail DoError) = Some (Running w')
      /\ pendingIP (svc w') = ""
      /\ noneScheduled w'
      /\ trace w' = (trace stabilizing ++ [Log (LogErrorVerifying e)])%list.
Proof.
  assert (Hinv : timerInv stabilizing) by concrete_inv.
  split; [exact Hinv | split; [reflexivity | split; [reflexivity|]]].
  destruct (expiry_probe_failure_abandons stabilizing 0 AddrsFail DoError
              Hinv eq_refl eq_refl)
    as (e & w' & H1 & H2 & _ & _ & _ & H3 & H4 & _).
  exists e, w'. auto.
Defined.

(** Rule 3 while another candidate is pending: the new address replaces it,
    the old timer is stopped and can never fire, exactly the new timer is
    scheduled, and when it expires with the new address still there,
    [updateDNS] is called with the new address; the replaced candidate is
    never proposed. *)
Theorem new_candidate_supersedes (w : World) (t : nat) (look : IfaceLookup)
    (o : HttpOutcome DNSRecord.t) (A B C : string) :
  timerInv w -> isScheduled w t = true ->
  lastKnownIP (svc w) = A -> pendingIP (svc w) = B ->
  C <> A -> C <> B -> probes look C ->
  exists w1 w2 t1,
    step w (Tick look) = Some (Running w1)
    /\ pendingIP (svc w1) = C
    /\ stabilityTimer (svc w1) = Some t1
    /\ (forall t', isScheduled w1 t' = true <-> t' = t1)
    /\ t1 <> t
    /\ (forall look' o', step w1 (TimerFires t look' o') = None)
    /\ upsertCalls (trace w1) = upsertCalls (trace w)
    /\ step w1 (TimerFires t1 look o) = Some (Running w2)
    /\ upsertCalls (trace w2) = (upsertCalls (trace w) ++ [C])%list.
Proof.
  intros [H1 H2] Ht HA HB HCA HCB Hprobe.
  pose (w1 := started (withPending C
                 (logged (if String.eqb (lastKnownIP (svc w)) "" then LogDetected C
                          else LogDetectedNew C (lastKnownIP (svc w))) w))).
  assert (Hstep1 : step w (Tick look) = Some (Running w1)).
  { apply step_Tick. apply checkAndUpdate_new; [apply Hprobe | congruence | congruence]. }
  assert (Hsched : forall t', isScheduled w1 t' = true <-> t' = length (timers w)).
  { intros t'. apply (isScheduled_started (withPending C (logged _ w))). exact H1. }
  assert (Hu1 : upsertCalls (trace w1) = upsertCalls (trace w)).
  { subst w1. cbn. rewrite !upsertCalls_app. cbn. rewrite !app_nil_r. reflexivity. }
  assert (Hs1 : isScheduled w1 (length (timers w)) = true) by (apply Hsched; reflexivity).
  destruct (step_expiry_stable w1 (length (timers w)) look o C Hs1 eq_refl Hprobe)
    as (w2 & Hstep2 & Hu2 & _).
  assert (Hlt : t < length (timers w)) by (apply scheduled_lt, Ht).
  exists w1, w2, (length (timers w)).
  split; [exact Hstep1 | split; [reflexivity | split; [reflexivity|]]].
  split; [exact Hsched | split; [lia|]].
  split.
  { intros look' o'. apply step_TimerFires_disabled.
    destruct (isScheduled w1 t) eqn:E; [|reflexivity]. apply Hsched in E. lia. }
  split; [exact Hu1 | split; [exact Hstep2|]].
  rewrite Hu2, Hu1. reflexivity.
Qed.

Lemma new_candidate_supersedes_witness :
  timerInv stabilizing
  /\ isScheduled stabilizing 0 = true
  /\ probes lookC "2001:db8::3"
  /\ exists w1 w2 t1,
      step stabilizing (Tick lookC) = Some (Running w1)
      /\ pendingIP (svc w1) = "2001:db8::3"
      /\ step w1 (TimerFires t1 lookC DoError) = Some (Running w2)
      /\ upsertCalls (trace w2) = ["2001:db8::3"].
Proof.
  assert (Hinv : timerInv stabilizing) by concrete_inv.
  assert (Hprobe : probes lookC "2001:db8::3") by (intros w; reflexivity).
  split; [exact Hinv | split; [reflexivity | split; [exact Hprobe|]]].
  destruct (new_candidate_supersedes stabilizing 0 lookC DoError
              "2001:db8::1" "2001:db8::2" "2001:db8::3"
              Hinv eq_refl eq_refl eq_refl ltac:(discriminate) ltac:(discriminate) Hprobe)
    as (w1 & w2 & t1 & H1 & H2 & _ & _ & _ & _ & _ & H3 & H4).
  exists w1, w2, t1. auto.
Defined.

(** Rules 2 and 4 without a revert: any number of polls that observe the
    confirmed address with nothing else pending, or the candidate that is
    already pending, leave the world exactly as it is: no log line, no
    request, and the running timer is neither stopped nor restarted. *)
Theorem polls_without_change_are_noops (w : World) (looks : list IfaceLookup) (ip : string) :
  Forall (fun look => probes look ip) looks ->
  (ip = lastKnownIP (svc w) /\ (pendingIP (svc w) = "" \/ pendingIP (svc w) = ip))
  \/ (ip <> lastKnownIP (svc w) /\ ip = pendingIP (svc w)) ->
  run (Running w) (Tick <$> looks) = Some (Running w).
Proof.
  intros Hall Hcase. induction Hall as [|look looks Hprobe _ IH]; [reflexivity|].
  cbn [fmap list_fmap run].
  assert (Hstep : step w (Tick look) = Some (Running w)).
  { apply step_Tick. destruct Hcase as [[Hl Hp]|[Hl Hp]].
    - apply checkAndUpdate_unchanged with (ip := ip); [apply Hprobe | exact Hl | exact Hp].
    - apply checkAndUpdate_watching with (ip := ip); [apply Hprobe | exact Hl | exact Hp]. }
  rewrite Hstep. exact IH.
Qed.

Lemma polls_without_change_are_noops_witness :
  Forall (fun look => probes look "2001:db8::2") [lookB; lookB; lookB]
  /\ run (Running stabilizing) (Tick <$> [lookB; lookB; lookB])
     = Some (Running stabilizing).
Proof.
  assert (Hprobe : probes lookB "2001:db8::2") by (intros w; reflexivity).
  assert (Hall : Forall (fun look => probes look "2001:db8::2") [lookB; lookB; lookB])
    by (repeat constructor; exact Hprobe).
  split; [exact Hall|].
  assert (Hcase : "2001:db8::2" <> lastKnownIP (svc stabilizing)
                  /\ "2001:db8::2" = pendingIP (svc stabilizing))
    by (split; [discriminate | reflexivity]).
  exact (polls_without_change_are_noops stabilizing [lookB; lookB; lookB] "2001:db8::2"
           Hall (or_intror Hcase)).
Defined.

(** ** What a step may change *)

Lemma getPublicIPv6_Ok_probes (look : IfaceLookup) (w : World) (ip : string) :
  getPublicIPv6 look w = Val (Ok ip) w -> probes look ip.
Proof.
  unfold probes, getPublicIPv6, mbind, M_bind, getS, mret, M_ret, panic.
  destruct look as [| |addrs]; [discriminate | discriminate |].
  destruct (rangeAddrs addrs); [|discriminate | discriminate].
  intros [= ->] w0. reflexivity.
Qed.

(** [updateDNS] is called only from the expiry handler of a scheduled timer,
    only when the re-probe returns the pending address, and only with that
    address, which is not empty.  A poll never calls it. *)
Theorem upsert_only_verified_pending (w : World) (ev : Event) (w' : World) :
  step w ev = Some (Running w') ->
  upsertCalls (trace w') = upsertCalls (trace w)
  \/ exists t look o,
      ev = TimerFires t look o
      /\ isScheduled w t = true
      /\ probes look (pendingIP (svc w))
      /\ pendingIP (svc w) <> ""
      /\ upsertCalls (trace w') = (upsertCalls (trace w) ++ [pendingIP (svc w)])%list.
Proof.
  intros Hstep. destruct ev as [look|t look o|].
  - apply step_Tick, checkAndUpdate_frame in Hstep as (_ & _ & _ & delta & -> & Hu & _).
    left. rewrite upsertCalls_app, Hu, app_nil_r. reflexivity.
  - apply step_TimerFires in Hstep as [Ht Hcb].
    apply stabilityCallback_cases in Hcb as [(e & _ & ->)|(ip & E & Hne & [[Hp ->]|[Hp ->]])].
    + left. cbn. rewrite upsertCalls_app, app_nil_r. reflexivity.
    + left. cbn. rewrite !upsertCalls_app. cbn. rewrite !app_nil_r. reflexivity.
    + right. exists t, look, o. cbn in Hp. subst ip.
      split; [reflexivity | split; [exact Ht|]].
      split; [eapply getPublicIPv6_Ok_probes, E | split; [exact Hne|]].
      match goal with |- context [settled ?i ?o ?v] =>
        destruct (settled_trace_calls i o v) as [-> _] end.
      match goal with |- context [updated ?i ?o ?v] =>
        destruct (updated_trace_calls i o v) as [-> _] end.
      cbn. rewrite upsertCalls_app, app_nil_r. reflexivity.
  - cbn in Hstep. destruct (shutdown w); discriminate.
Qed.

Lemma upsert_only_verified_pending_witness :
  exists w',
    step stabilizing (TimerFires 0 lookB DoError) = Some (Running w')
    /\ (upsertCalls (trace w') = upsertCalls (trace stabilizing)
        \/ exists t look o,
            TimerFires 0 lookB (DoError : HttpOutcome DNSRecord.t) = TimerFires t look o
            /\ isScheduled stabilizing t = true
            /\ probes look (pendingIP (svc stabilizing))
            /\ pendingIP (svc stabilizing) <> ""
            /\ upsertCalls (trace w')
               = (upsertCalls (trace stabilizing) ++ [pendingIP (svc stabilizing)])%list).
Proof.
  destruct (step stabilizing (TimerFires 0 lookB DoError)) as [[w'| |]|] eqn:Hstep;
    try (vm_compute in Hstep; discriminate Hstep).
  exists w'. split; [reflexivity|].
  exact (upsert_only_verified_pending stabilizing (TimerFires 0 lookB DoError) w' Hstep).
Defined.

(** The confirmed address and the record identifier change only in an expiry
    handler whose exchange with the provider succeeds: [lastKnownIP] then
    becomes the pending address, and [recordID] changes only if it was empty,
    to the identifier of the response.  A poll, a failed exchange and a
    re-armed timer leave both as they are. *)
Theorem confirmed_state_changes_only_on_success (w : World) (ev : Event) (w' : World) :
  step w ev = Some (Running w') ->
  (lastKnownIP (svc w') = lastKnownIP (svc w) /\ recordID (svc w') = recordID (svc w))
  \/ exists t look errors result,
      ev = TimerFires t look (Response true errors result)
      /\ probes look (pendingIP (svc w))
      /\ lastKnownIP (svc w') = pendingIP (svc w)
      /\ recordID (svc w') = (if String.eqb (recordID (svc w)) ""
                              then DNSRecord.ID result else recordID (svc w)).
Proof.
  intros Hstep. destruct ev as [look|t look o|].
  - apply step_Tick, checkAndUpdate_frame in Hstep as (_ & Hr & Hl & _). auto.
  - apply step_TimerFires in Hstep as [Ht Hcb].
    apply stabilityCallback_cases in Hcb as [(e & _ & ->)|(ip & E & Hne & [[Hp ->]|[Hp ->]])].
    + left. split; reflexivity.
    + left. split; reflexivity.
    + cbn in Hp. subst ip. unfold settled.
      destruct o as [| | | |[] errors result]; cbn; try (left; split; reflexivity).
      right. exists t, look, errors, result.
      split; [reflexivity | split; [eapply getPublicIPv6_Ok_probes, E|]].
      split; reflexivity.
  - cbn in Hstep. destruct (shutdown w); discriminate.
Qed.

Lemma confirmed_state_changes_only_on_success_witness :
  exists w',
    step firstDetection (TimerFires 0 lookB (Response true [] recordA)) = Some (Running w')
    /\ lastKnownIP (svc w') = "2001:db8::2"
    /\ recordID (svc w') = "abc123".
Proof.
  destruct (step firstDetection (TimerFires 0 lookB (Response true [] recordA)))
    as [[w'| |]|] eqn:Hstep; try (vm_compute in Hstep; discriminate Hstep).
  exists w'. split; [reflexivity|].
  destruct (confirmed_state_changes_only_on_success firstDetection _ w' Hstep)
    as [[Hl Hr]|(t & look & errors & result & Hev & _ & Hl & Hr)].
  - exfalso. vm_compute in Hstep. injection Hstep as <-. discriminate Hl.
  - injection Hev as _ _ _ <-. split; [exact Hl | exact Hr].
Defined.

(** ** Timers over a run *)

Lemma scheduled_stopPtr_false (p : option nat) (l : list Timer) (t : nat) :
  scheduled l t = false -> scheduled (stopPtr p l) t = false.
Proof.
  intros H. destruct p as [t0|]; [|exact H]. cbn.
  rewrite scheduled_stopAt. destruct (Nat.eqb t0 t); [reflexivity | exact H].
Qed.

Lemma scheduled_app_l (l : list Timer) (x : Timer) (t : nat) :
  t < length l -> scheduled (l ++ [x]) t = scheduled l t.
Proof. intros H. unfold scheduled. rewrite lookup_app_l by exact H. reflexivity. Qed.

Lemma isScheduled_started_old (v : World) (t : nat) :
  t < length (timers v) -> isScheduled v t = false -> isScheduled (started v) t = false.
Proof.
  intros Hlt H. unfold isScheduled, started; cbn.
  rewrite scheduled_app_l by (rewrite length_stopPtr; exact Hlt).
  apply scheduled_stopPtr_false, H.
Qed.

Lemma isScheduled_expire_false (w : World) (t0 t : nat) :
  isScheduled w t = false -> isScheduled (expire t0 w) t = false.
Proof. intros H. rewrite isScheduled_expire. destruct (Nat.eqb t0 t); [reflexivity | exact H]. Qed.

(** A step never shortens the timer store and never revives a timer. *)
Lemma step_timers (w : World) (ev : Event) (w' : World) :
  step w ev = Some (Running w') ->
  length (timers w) <= length (timers w')
  /\ forall t, t < length (timers w) -> isScheduled w t = false -> isScheduled w' t = false.
Proof.
  intros Hstep. destruct ev as [look|t0 look o|].
  - apply step_Tick, checkAndUpdate_cases in Hstep
      as [(e & _ & ->)|(ip & _ & _ & [(_ & _ & _ & ->)|[(_ & _ & ->)|[(_ & _ & ->)|(_ & _ & ->)]]])].
    + split; [reflexivity | auto].
    + split; [cbn; rewrite length_stopPtr; reflexivity|].
      intros t _ H. apply scheduled_stopPtr_false, H.
    + split; [reflexivity | auto].
    + split; [reflexivity | auto].
    + split; [cbn; rewrite length_app, length_stopPtr; lia|].
      intros t Hlt H. apply (isScheduled_started_old (withPending ip (logged _ w))); assumption.
  - apply step_TimerFires in Hstep as [_ Hcb].
    assert (Hlen : length (timers (expire t0 w)) = length (timers w))
      by (cbn; apply length_alter).
    apply stabilityCallback_cases in Hcb as [(e & _ & ->)|(ip & _ & _ & [[_ ->]|[_ ->]])].
    + split; [cbn; rewrite length_alter; reflexivity|].
      intros t _ H. apply (isScheduled_expire_false w t0 t H).
    + split; [cbn; rewrite length_app, length_stopPtr, length_alter; lia|].
      intros t Hlt H.
      apply (isScheduled_started_old (withPending ip (logged _ (expire t0 w))));
        [cbn; rewrite length_alter; exact Hlt | apply (isScheduled_expire_false w t0 t H)].
    + split; [unfold settled; destruct (updateError o); cbn; rewrite length_alter; reflexivity|].
      intros t _ H. unfold settled.
      destruct (updateError o); apply (isScheduled_expire_false w t0 t H).
  - cbn in Hstep. destruct (shutdown w); discriminate.
Qed.

(** A timer that was stopped or has fired never fires again, whatever
    happens afterwards. *)
Theorem dead_timer_never_fires (evs : list Event) (w w' : World) (t : nat) :
  run (Running w) evs = Some (Running w') ->
  t < length (timers w) -> isScheduled w t = false ->
  isScheduled w' t = false
  /\ forall look o, step w' (TimerFires t look o) = None.
Proof.
  intros Hrun Hlt Hdead.
  assert (H : isScheduled w' t = false).
  { revert w Hrun Hlt Hdead. induction evs as [|ev evs IH]; intros w Hrun Hlt Hdead.
    - injection Hrun as <-. exact Hdead.
    - cbn in Hrun. destruct (step w ev) as [[w1| |]|] eqn:Es; try discriminate.
      2,3: destruct evs; discriminate.
      destruct (step_timers w ev w1 Es) as [Hlen Hkeep].
      apply (IH w1 Hrun); [lia | apply Hkeep; assumption]. }
  split; [exact H|]. intros look o. apply step_TimerFires_disabled, H.
Qed.

Lemma dead_timer_never_fires_witness :
  exists w1,
    step stabilizing (Tick lookA) = Some (Running w1)
    /\ isScheduled w1 0 = false
    /\ forall w2, run (Running w1) [Tick lookB; Tick lookC] = Some (Running w2) ->
                  isScheduled w2 0 = false.
Proof.
  destruct (step stabilizing (Tick lookA)) as [[w1| |]|] eqn:Hstep;
    try (vm_compute in Hstep; discriminate Hstep).
  assert (Hw1 : timers w1 = [{| duration := 5000000000; status := Stopped |}])
    by (vm_compute in Hstep; injection Hstep as <-; reflexivity).
  assert (Hdead : isScheduled w1 0 = false) by (unfold isScheduled; rewrite Hw1; reflexivity).
  assert (Hlt : 0 < length (timers w1)) by (rewrite Hw1; cbn; lia).
  exists w1. split; [reflexivity | split; [exact Hdead|]].
  intros w2 Hrun.
  exact (proj1 (dead_timer_never_fires [Tick lookB; Tick lookC] w1 w2 0 Hrun Hlt Hdead)).
Defined.

(** On a termination signal in any state reached from startup, the process
    logs, stops the stability timer and exits with status 0: no timer is left
    scheduled, the service state is untouched and nothing is sent. *)
Theorem shutdown_stops_timer (file : ConfigFile)
    (fetch : HttpOutcome (list DNSRecord.t)) (first : IfaceLookup)
    (evs : list Event) (w : World) :
  run (main file fetch first) evs = Some (Running w) ->
  exists w',
    shutdown w = Val tt w'
    /\ step w Signal = Some (Exited 0 (trace w'))
    /\ trace w' = (trace w ++ [Log LogShuttingDown])%list
    /\ svc w' = svc w
    /\ noneScheduled w'.
Proof.
  intros Hrun.
  assert (Hinv : timerInv w).
  { eapply run_inv; [|exact Hrun]. intros w0. apply main_inv. }
  destruct Hinv as [H1 _].
  exists {| svc := svc w; timers := stopPtr (stabilityTimer (svc w)) (timers w);
            trace := (trace w ++ [Log LogShuttingDown])%list |}.
  assert (E : shutdown w = Val tt {| svc := svc w;
                                     timers := stopPtr (stabilityTimer (svc w)) (timers w);
                                     trace := (trace w ++ [Log LogShuttingDown])%list |}).
  { unfold shutdown. run_m. destruct (stabilityTimer (svc w)); reflexivity. }
  split; [exact E|]. split; [cbn [step]; rewrite E; reflexivity|].
  split; [reflexivity | split; [reflexivity|]].
  intros t. apply scheduled_stopPtr, H1.
Qed.

Lemma shutdown_stops_timer_witness :
  run (main (Document exampleYaml) (Response true [] [recordA]) lookA) [Tick lookB]
    = Some (Running stabilizing)
  /\ exists w',
      step stabilizing Signal = Some (Exited 0 (trace w'))
      /\ noneScheduled w'.
Proof.
  assert (Hrun : run (main (Document exampleYaml) (Response true [] [recordA]) lookA)
                   [Tick lookB] = Some (Running stabilizing))
    by (vm_compute; reflexivity).
  split; [exact Hrun|].
  destruct (shutdown_stops_timer _ _ _ _ _ Hrun) as (w' & _ & H1 & _ & _ & H2).
  exists w'. auto.
Defined.

Lemma Forall_stopPtr (P : Timer -> Prop) (p : option nat) (l : list Timer) :
  (forall tm, P tm -> P (stopTimer tm)) -> Forall P l -> Forall P (stopPtr p l).
Proof.
  intros Hs Hl. destruct p as [t|]; [|exact Hl]. cbn. unfold stopAt.
  destruct (l !! t) as [tm|] eqn:E; [|exact Hl].
  apply Forall_insert; [exact Hl|]. apply Hs. eapply Forall_lookup_1; eassumption.
Qed.

Lemma duration_stopTimer (tm : Timer) : duration (stopTimer tm) = duration tm.
Proof. unfold stopTimer. destruct (status tm); reflexivity. Qed.

(** A step keeps the configuration, and every timer it creates waits for the
    configured stability delay. *)
Lemma step_durations (w : World) (ev : Event) (w' : World) :
  step w ev = Some (Running w') ->
  Forall (fun tm => duration tm = seconds (StabilityDelay (config (svc w)))) (timers w) ->
  config (svc w') = config (svc w)
  /\ Forall (fun tm => duration tm = seconds (StabilityDelay (config (svc w)))) (timers w').
Proof.
  intros Hstep Hall.
  set (P := fun tm => duration tm = seconds (StabilityDelay (config (svc w)))) in *.
  assert (Hs : forall tm, P tm -> P (stopTimer tm))
    by (intros tm; unfold P; rewrite duration_stopTimer; auto).
  assert (Hstart : forall v, config (svc v) = config (svc w) -> Forall P (timers v) ->
                             Forall P (timers (started v))).
  { intros v Hc Hv. cbn. apply Forall_app. split; [apply Forall_stopPtr; assumption|].
    constructor; [|constructor]. unfold P. cbn. rewrite Hc. reflexivity. }
  destruct ev as [look|t0 look o|].
  - apply step_Tick, checkAndUpdate_cases in Hstep
      as [(e & _ & ->)|(ip & _ & _ & [(_ & _ & _ & ->)|[(_ & _ & ->)|[(_ & _ & ->)|(_ & _ & ->)]]])].
    + split; [reflexivity | exact Hall].
    + split; [reflexivity|]. cbn. apply Forall_stopPtr; assumption.
    + split; [reflexivity | exact Hall].
    + split; [reflexivity | exact Hall].
    + split; [reflexivity|]. apply Hstart; [reflexivity | exact Hall].
  - apply step_TimerFires in Hstep as [_ Hcb].
    assert (Hexp : Forall P (timers (expire t0 w))).
    { cbn. apply Forall_alter; [exact Hall|]. intros tm _ Htm. exact Htm. }
    apply stabilityCallback_cases in Hcb as [(e & _ & ->)|(ip & _ & _ & [[_ ->]|[_ ->]])].
    + split; [reflexivity | exact Hexp].
    + split; [reflexivity|]. apply Hstart; [reflexivity | exact Hexp].
    + unfold settled. destruct (updateError o); (split; [reflexivity | exact Hexp]).
  - cbn in Hstep. destruct (shutdown w); discriminate.
Qed.

Lemma run_durations (evs : list Event) (w w' : World) :
  run (Running w) evs = Some (Running w') ->
  Forall (fun tm => duration tm = seconds (StabilityDelay (config (svc w)))) (timers w) ->
  config (svc w') = config (svc w)
  /\ Forall (fun tm => duration tm = seconds (StabilityDelay (config (svc w)))) (timers w').
Proof.
  revert w. induction evs as [|ev evs IH]; intros w Hrun Hall.
  - injection Hrun as <-. auto.
  - cbn in Hrun. destruct (step w ev) as [[w1| |]|] eqn:Es; try discriminate.
    2,3: destruct evs; discriminate.
    destruct (step_durations w ev w1 Es Hall) as [Hc Hall1].
    rewrite <- Hc in Hall1. destruct (IH w1 Hrun Hall1) as [Hc' Hall'].
    rewrite Hc in Hc', Hall'. auto.
Qed.

(** The configuration loaded at startup is never changed afterwards, and
    every stability timer ever created waits for its stability delay; for a
    delay from 0 to 9223372036 seconds that is the delay in nanoseconds,
    without wrap-around. *)
Theorem timers_wait_stability_delay (file : ConfigFile) (cfg : Config)
    (fetch : HttpOutcome (list DNSRecord.t)) (first : IfaceLookup)
    (evs : list Event) (w : World) :
  loadConfig file = Ok cfg ->
  run (main file fetch first) evs = Some (Running w) ->
  config (svc w) = cfg
  /\ Forall (fun tm => duration tm = seconds (StabilityDelay cfg)) (timers w)
  /\ ((0 <= StabilityDelay cfg <= 9223372036)%Z ->
      Forall (fun tm => duration tm = (StabilityDelay cfg * 1000000000)%Z) (timers w)).
Proof.
  intros Hload Hrun.
  assert (H : config (svc w) = cfg
              /\ Forall (fun tm => duration tm = seconds (StabilityDelay cfg)) (timers w)).
  { destruct (main file fetch first) as [w0| |] eqn:Hmain;
      [|destruct evs; discriminate Hrun ..].
    apply main_Running in Hmain as (cfg' & Hl' & _ & _ & _ & Hfirst).
    assert (cfg' = cfg) by congruence. subst cfg'.
    assert (Hb : Forall (fun tm => duration tm
                                   = seconds (StabilityDelay (config (svc (booted cfg fetch)))))
                   (timers (booted cfg fetch))) by constructor.
    apply step_Tick in Hfirst.
    destruct (step_durations _ _ _ Hfirst Hb) as [Hc0 Hall0].
    change (config (svc (booted cfg fetch))) with cfg in Hc0, Hall0.
    rewrite <- Hc0 in Hall0.
    destruct (run_durations evs w0 w Hrun Hall0) as [Hc Hall].
    rewrite Hc0 in Hc, Hall. auto. }
  destruct H as [Hc Hall]. split; [exact Hc | split; [exact Hall|]].
  intros Hr. rewrite <- (seconds_exact (StabilityDelay cfg)) by lia. exact Hall.
Qed.

Lemma timers_wait_stability_delay_witness :
  loadConfig (Document exampleYaml) = Ok exampleConfig
  /\ run (main (Document exampleYaml) (Response true [] [recordA]) lookA) [Tick lookB]
     = Some (Running stabilizing)
  /\ Forall (fun tm => duration tm = 5000000000%Z) (timers stabilizing).
Proof.
  assert (Hrun : run (main (Document exampleYaml) (Response true [] [recordA]) lookA)
                   [Tick lookB] = Some (Running stabilizing))
    by (vm_compute; reflexivity).
  split; [reflexivity | split; [exact Hrun|]].
  destruct (timers_wait_stability_delay (Document exampleYaml) exampleConfig _ _ _ _
              eq_refl Hrun) as (_ & _ & H).
  apply H. cbn. lia.
Defined.

(** ** The network over a run *)

Lemma requestOf_writes (s : DDNSService) (ip : string) :
  ip <> "" -> writesRecord (requestOf s ip).
Proof.
  intros H. split.
  - cbn. destruct (String.eqb (recordID s) ""); auto.
  - eexists. split; [reflexivity | split; [reflexivity | exact H]].
Qed.

(** What one step adds to the trace: nothing for the DNS Record Client, or
    one call of [updateDNS] with a non-empty address and at most one request,
    which writes the record. *)
Lemma step_delta (w : World) (ev : Event) (w' : World) :
  step w ev = Some (Running w') ->
  exists delta,
    trace w' = (trace w ++ delta)%list
    /\ Forall (fun ip => ip <> "") (upsertCalls delta)
    /\ length (httpRequests delta) <= length (upsertCalls delta)
    /\ Forall writesRecord (httpRequests delta).
Proof.
  intros Hstep. destruct ev as [look|t look o|].
  - apply step_Tick, checkAndUpdate_frame in Hstep as (_ & _ & _ & delta & Ht & Hu & Hh).
    exists delta. rewrite Hu, Hh. split; [exact Ht | split; [constructor | split; [reflexivity | constructor]]].
  - apply step_TimerFires in Hstep as [_ Hcb].
    apply stabilityCallback_cases in Hcb as [(e & _ & ->)|(ip & _ & Hne & [[_ ->]|[_ ->]])].
    + eexists. split; [reflexivity|]. cbn. split; [constructor | split; [reflexivity | constructor]].
    + eexists. split; [cbn; rewrite <- app_assoc; reflexivity|].
      cbn. split; [constructor | split; [reflexivity | constructor]].
    + pose proof (requestOf_writes (svc w) ip Hne) as Hw.
      exists ([Log (LogStable (StabilityDelay (config (svc w))))]
              ++ (UpdateDNSCalled ip ::
                    match o with
                    | NewRequestError => []
                    | _ => [HttpDo (requestOf (svc w) ip)]
                    end)
              ++ [Log match updateError o with
                      | Some e => LogFailedUpdate e
                      | None => LogUpdated ip
                      end])%list.
      split.
      { unfold settled. destruct (updateError o); cbn; rewrite <- !app_assoc; reflexivity. }
      rewrite !upsertCalls_app, !httpRequests_app.
      destruct o as [| | | |success errors result]; cbn;
        (split; [apply Forall_singleton; exact Hne
                | split; [lia | first [apply Forall_singleton; exact Hw | constructor]]]).
  - cbn in Hstep. destruct (shutdown w); discriminate.
Qed.

Lemma run_delta (evs : list Event) (w w' : World) :
  run (Running w) evs = Some (Running w') ->
  exists delta,
    trace w' = (trace w ++ delta)%list
    /\ Forall (fun ip => ip <> "") (upsertCalls delta)
    /\ length (httpRequests delta) <= length (upsertCalls delta)
    /\ Forall writesRecord (httpRequests delta).
Proof.
  revert w. induction evs as [|ev evs IH]; intros w Hrun.
  - injection Hrun as <-. exists []. rewrite app_nil_r.
    split; [reflexivity | split; [constructor | split; [reflexivity | constructor]]].
  - cbn in Hrun. destruct (step w ev) as [[w1| |]|] eqn:Es; try discriminate.
    2,3: destruct evs; discriminate.
    destruct (step_delta w ev w1 Es) as (d1 & Ht1 & Hu1 & Hl1 & Hw1).
    destruct (IH w1 Hrun) as (d2 & Ht2 & Hu2 & Hl2 & Hw2).
    exists (d1 ++ d2)%list. rewrite upsertCalls_app, httpRequests_app, !length_app.
    split; [rewrite Ht2, Ht1, app_assoc; reflexivity|].
    split; [apply Forall_app; auto | split; [lia | apply Forall_app; auto]].
Qed.

(** The trace with which the polling loop is entered: the lookup is the only
    request, [updateDNS] has not been called. *)
Lemma main_trace (file : ConfigFile) (fetch : HttpOutcome (list DNSRecord.t))
    (first : IfaceLookup) (w : World) :
  main file fetch first = Running w ->
  exists cfg,
    loadConfig file = Ok cfg
    /\ upsertCalls (trace w) = []
    /\ httpRequests (trace w) = [lookupRequest (svc (newService cfg))].
Proof.
  intros Hmain. apply main_Running in Hmain as (cfg & Hl & _ & Hf & _ & Hfirst).
  exists cfg. split; [exact Hl|].
  apply checkAndUpdate_frame in Hfirst as (_ & _ & _ & delta & -> & Hu & Hh).
  rewrite upsertCalls_app, httpRequests_app, Hu, Hh, !app_nil_r.
  destruct fetch as [| | | |[] errors [|r0 rs]]; try discriminate Hf; split; reflexivity.
Qed.

(** In every state reached from startup, every address [updateDNS] was ever
    called with is non-empty. *)
Theorem never_upserts_empty_address (file : ConfigFile)
    (fetch : HttpOutcome (list DNSRecord.t)) (first : IfaceLookup)
    (evs : list Event) (w : World) :
  run (main file fetch first) evs = Some (Running w) ->
  Forall (fun ip => ip <> "") (upsertCalls (trace w)).
Proof.
  intros Hrun.
  destruct (main file fetch first) as [w0| |] eqn:Hmain;
    [|destruct evs; discriminate Hrun ..].
  destruct (main_trace _ _ _ _ Hmain) as (cfg & _ & Hu0 & _).
  destruct (run_delta evs w0 w Hrun) as (delta & -> & Hu & _).
  rewrite upsertCalls_app, Hu0. exact Hu.
Qed.

Lemma never_upserts_empty_address_witness :
  run (main (Document exampleYaml) (Response true [] [recordA]) lookA) [Tick lookB]
    = Some (Running stabilizing)
  /\ Forall (fun ip => ip <> "") (upsertCalls (trace stabilizing)).
Proof.
  assert (Hrun : run (main (Document exampleYaml) (Response true [] [recordA]) lookA)
                   [Tick lookB] = Some (Running stabilizing))
    by (vm_compute; reflexivity).
  split; [exact Hrun|].
  exact (never_upserts_empty_address _ _ _ _ _ Hrun).
Defined.

(** In every state reached from startup, the requests sent are the one
    lookup of startup followed by writes of the record (POST or PUT of an
    AAAA record with a non-empty content), at most one per call of
    [updateDNS]: the lookup is never repeated and no write is retried. *)
Theorem one_lookup_then_writes (file : ConfigFile)
    (fetch : HttpOutcome (list DNSRecord.t)) (first : IfaceLookup)
    (evs : list Event) (w : World) :
  run (main file fetch first) evs = Some (Running w) ->
  exists cfg writes,
    loadConfig file = Ok cfg
    /\ httpRequests (trace w) = lookupRequest (svc (newService cfg)) :: writes
    /\ Method (lookupRequest (svc (newService cfg))) = "GET"
    /\ Forall writesRecord writes
    /\ length writes <= length (upsertCalls (trace w)).
Proof.
  intros Hrun.
  destruct (main file fetch first) as [w0| |] eqn:Hmain;
    [|destruct evs; discriminate Hrun ..].
  destruct (main_trace _ _ _ _ Hmain) as (cfg & Hl & Hu0 & Hh0).
  destruct (run_delta evs w0 w Hrun) as (delta & -> & _ & Hlen & Hw).
  exists cfg, (httpRequests delta).
  rewrite httpRequests_app, upsertCalls_app, Hh0, Hu0.
  split; [exact Hl | split; [reflexivity | split; [reflexivity | split; [exact Hw | exact Hlen]]]].
Qed.

Lemma one_lookup_then_writes_witness :
  exists w,
    run (main (Document exampleYaml) (Response true [] []) lookB)
        [TimerFires 0 lookB (Response true [] recordA)] = Some (Running w)
    /\ exists cfg writes,
        loadConfig (Document exampleYaml) = Ok cfg
        /\ httpRequests (trace w) = lookupRequest (svc (newService cfg)) :: writes
        /\ Forall writesRecord writes
        /\ length writes <= length (upsertCalls (trace w)).
Proof.
  destruct (run (main (Document exampleYaml) (Response true [] []) lookB)
              [TimerFires 0 lookB (Response true [] recordA)]) as [[w| |]|] eqn:Hrun;
    try (vm_compute in Hrun; discriminate Hrun).
  exists w. split; [reflexivity|].
  destruct (one_lookup_then_writes _ _ _ _ _ Hrun) as (cfg & writes & H1 & H2 & _ & H3 & H4).
  exists cfg, writes. auto.
Defined.

(** From a cold start with no record at the provider: the initial check makes
    the observed address pending on timer 0; when the timer expires with the
    address still there and the provider accepts the create, the address is
    confirmed, the identifier of the response is cached, nothing is pending,
    and the requests sent are exactly the lookup and one POST of that address
    to the records collection. *)
Theorem cold_start_creates_record (file : ConfigFile) (cfg : Config)
    (first look : IfaceLookup) (errors errors' : list CFError)
    (result : DNSRecord.t) (X : string) :
  loadConfig file = Ok cfg -> validateConfig cfg = None ->
  (0 < seconds (PollInterval cfg))%Z ->
  probes first X -> probes look X ->
  exists w1 w2,
    main file (Response true errors []) first = Running w1
    /\ pendingIP (svc w1) = X /\ lastKnownIP (svc w1) = ""
    /\ (forall t, isScheduled w1 t = true <-> t = 0)
    /\ step w1 (TimerFires 0 look (Response true errors' result)) = Some (Running w2)
    /\ lastKnownIP (svc w2) = X
    /\ pendingIP (svc w2) = ""
    /\ recordID (svc w2) = DNSRecord.ID result
    /\ noneScheduled w2
    /\ upsertCalls (trace w2) = [X]
    /\ httpRequests (trace w2)
       = [lookupRequest (svc (newService cfg));
          {| Method := "POST"; URL := collectionURL cfg;
             Authorization := "Bearer " +:+ APIToken (CloudFlare cfg);
             ContentType := "application/json";
             ReqBody := Some {| Body.type_ := "AAAA";
                                Body.name := RecordName (CloudFlare cfg);
                                Body.content := X;
                                Body.ttl := TTL (CloudFlare cfg);
                                Body.proxied := Proxied (CloudFlare cfg) |} |}].
Proof.
  intros Hload Hvalid Hpos Hfirst Hlook.
  assert (HX : X <> "") by (eapply probes_nonempty, Hfirst).
  set (b := booted cfg (Response true errors [])).
  pose (w1 := started (withPending X (logged (LogDetected X) b))).
  assert (Hmain : main file (Response true errors []) first = Running w1).
  { apply main_Running. exists cfg.
    split; [exact Hload | split; [exact Hvalid | split; [reflexivity | split; [exact Hpos|]]]].
    exact (checkAndUpdate_new first b X (Hfirst b) HX HX). }
  assert (Hsched : forall t, isScheduled w1 t = true <-> t = 0).
  { intros t. apply (isScheduled_started (withPending X (logged (LogDetected X) b))).
    apply noneScheduled_onePointer. intros t'. reflexivity. }
  assert (Hs0 : isScheduled w1 0 = true) by (apply Hsched; reflexivity).
  destruct (step_expiry_stable w1 0 look (Response true errors' result) X Hs0 eq_refl Hlook)
    as (w2 & Hstep & Hu & Hh & Hl & Hp & _ & _ & Hs & _).
  exists w1, w2.
  split; [exact Hmain | split; [reflexivity | split; [reflexivity | split; [exact Hsched|]]]].
  split; [exact Hstep | split; [exact Hl | split; [exact Hp|]]].
  split.
  { apply step_TimerFires in Hstep as [_ Hcb].
    rewrite (stabilityCallback_stable look _ (expire 0 w1) X (Hlook _) eq_refl) in Hcb.
    injection Hcb as <-. reflexivity. }
  split.
  { intros t. rewrite Hs. apply expire_noneScheduled; [|exact Hs0].
    intros t' Ht'. apply Hsched in Ht'. subst t'. reflexivity. }
  split; [rewrite Hu; reflexivity | rewrite Hh; reflexivity].
Qed.

Lemma cold_start_creates_record_witness :
  loadConfig (Document exampleYaml) = Ok exampleConfig
  /\ validateConfig exampleConfig = None
  /\ (0 < seconds (PollInterval exampleConfig))%Z
  /\ probes lookB "2001:db8::2"
  /\ exists w1 w2,
      main (Document exampleYaml) (Response true [] []) lookB = Running w1
      /\ step w1 (TimerFires 0 lookB (Response true [] recordA)) = Some (Running w2)
      /\ lastKnownIP (svc w2) = "2001:db8::2"
      /\ recordID (svc w2) = "abc123"
      /\ upsertCalls (trace w2) = ["2001:db8::2"].
Proof.
  assert (Hprobe : probes lookB "2001:db8::2") by (intros w; reflexivity).
  assert (Hpos : (0 < seconds (PollInterval exampleConfig))%Z) by reflexivity.
  split; [reflexivity | split; [reflexivity | split; [exact Hpos | split; [exact Hprobe|]]]].
  destruct (cold_start_creates_record (Document exampleYaml) exampleConfig lookB lookB
              [] [] recordA "2001:db8::2" eq_refl eq_refl Hpos Hprobe Hprobe)
    as (w1 & w2 & H1 & _ & _ & _ & H2 & H3 & _ & H4 & _ & H5 & _).
  exists w1, w2. auto.
Defined.

(** ** More on the rules *)

Lemma last_cons_default (l : list string) (a d1 d2 : string) :
  List.last (a :: l) d1 = List.last (a :: l) d2.
Proof.
  revert a. induction l as [|b l IH]; intros a; [reflexivity|].
  change (List.last (b :: l) d1 = List.last (b :: l) d2). apply IH.
Qed.

(** Case (b) of the expiry handler, repeated: as long as every expiry finds
    an address other than the pending one, the handler adopts it and starts
    the next timer; however long that goes on, [updateDNS] is never called,
    the confirmed address stays, and the last address seen is pending on the
    one scheduled timer. *)
Theorem changing_address_never_updates
    (obs : list (IfaceLookup * HttpOutcome DNSRecord.t)) (ips : list string)
    (w : World) (t : nat) :
  timerInv w -> isScheduled w t = true ->
  Forall2 (fun lo ip => probes lo.1 ip) obs ips ->
  keepsChanging (pendingIP (svc w)) ips ->
  exists w',
    run (Running w) (expiries t (length (timers w)) obs) = Some (Running w')
    /\ upsertCalls (trace w') = upsertCalls (trace w)
    /\ httpRequests (trace w') = httpRequests (trace w)
    /\ lastKnownIP (svc w') = lastKnownIP (svc w)
    /\ pendingIP (svc w') = List.last ips (pendingIP (svc w))
    /\ length (timers w') = length (timers w) + length obs
    /\ timerInv w'.
Proof.
  intros Hinv Ht Hobs. revert w t Hinv Ht.
  induction Hobs as [|[look o] ip obs ips Hprobe _ IH]; intros w t Hinv Ht Hch.
  - exists w. cbn. rewrite Nat.add_0_r. auto 10.
  - destruct Hch as [Hne Hch]. cbn in Hprobe.
    pose (w1 := started (withPending ip (logged LogChangedDuringWindow (expire t w)))).
    assert (Hstep : step w (TimerFires t look o) = Some (Running w1)).
    { apply step_TimerFires. split; [exact Ht|].
      apply stabilityCallback_changed; [apply Hprobe | exact Hne]. }
    assert (Hlen : length (timers w1) = S (length (timers w))).
    { subst w1. cbn. rewrite length_app, length_stopPtr, length_alter. cbn. lia. }
    assert (Hinv1 : timerInv w1) by (eapply step_inv; eassumption).
    assert (Hs1 : isScheduled w1 (length (timers w)) = true).
    { replace (length (timers w)) with (length (timers (expire t w)))
        by (cbn; apply length_alter).
      apply (started_new_scheduled (withPending ip (logged _ (expire t w)))). }
    destruct (IH w1 (length (timers w)) Hinv1 Hs1 Hch)
      as (w2 & Hrun & Hu & Hh & Hl & Hp & Hn & Hinv2).
    exists w2. cbn [expiries run]. rewrite Hstep, <- Hlen.
    split; [exact Hrun|].
    split; [rewrite Hu; subst w1; cbn; rewrite !upsertCalls_app; cbn;
            rewrite !app_nil_r; reflexivity|].
    split; [rewrite Hh; subst w1; cbn; rewrite !httpRequests_app; cbn;
            rewrite !app_nil_r; reflexivity|].
    split; [rewrite Hl; reflexivity|].
    split; [rewrite Hp; destruct ips as [|ip' ips]; [reflexivity|];
            exact (last_cons_default ips ip' (pendingIP (svc w1)) (pendingIP (svc w)))|].
    split; [rewrite Hn, Hlen; cbn; lia | exact Hinv2].
Qed.

Lemma changing_address_never_updates_witness :
  timerInv stabilizing
  /\ isScheduled stabilizing 0 = true
  /\ keepsChanging (pendingIP (svc stabilizing)) ["2001:db8::3"; "2001:db8::2"]
  /\ exists w',
      run (Running stabilizing)
          (expiries 0 (length (timers stabilizing))
             [(lookC, DoError); (lookB, Response true [] recordA)]) = Some (Running w')
      /\ upsertCalls (trace w') = upsertCalls (trace stabilizing)
      /\ pendingIP (svc w') = "2001:db8::2".
Proof.
  assert (Hinv : timerInv stabilizing) by concrete_inv.
  assert (Hch : keepsChanging (pendingIP (svc stabilizing)) ["2001:db8::3"; "2001:db8::2"])
    by (cbn; repeat split; discriminate).
  assert (Hobs : Forall2 (fun (lo : IfaceLookup * HttpOutcome DNSRecord.t) ip => probes lo.1 ip)
                   [(lookC, DoError); (lookB, Response true [] recordA)]
                   ["2001:db8::3"; "2001:db8::2"])
    by (repeat constructor; intros w; reflexivity).
  split; [exact Hinv | split; [reflexivity | split; [exact Hch|]]].
  destruct (changing_address_never_updates _ _ stabilizing 0 Hinv eq_refl Hobs Hch)
    as (w' & H1 & H2 & _ & _ & H3 & _).
  exists w'. split; [exact H1 | split; [exact H2 | exact H3]].
Defined.

(** With nothing confirmed yet (no record was found at startup and no update
    has succeeded), every poll that finds an address leaves that address
    pending: the branch for an unchanged address cannot be taken, since a
    found address is never empty. *)
Theorem unconfirmed_poll_makes_pending (w : World) (look : IfaceLookup) (ip : string) :
  lastKnownIP (svc w) = "" -> probes look ip ->
  exists w',
    step w (Tick look) = Some (Running w')
    /\ pendingIP (svc w') = ip
    /\ lastKnownIP (svc w') = ""
    /\ (pendingIP (svc w) = ip -> w' = w)
    /\ (pendingIP (svc w) <> ip ->
        stabilityTimer (svc w') = Some (length (timers w))
        /\ isScheduled w' (length (timers w)) = true).
Proof.
  intros Hl Hprobe.
  assert (Hne : ip <> lastKnownIP (svc w))
    by (rewrite Hl; eapply probes_nonempty, Hprobe).
  destruct (String.eqb_spec ip (pendingIP (svc w))) as [Hp|Hp].
  - exists w. split.
    { apply step_Tick. apply checkAndUpdate_watching with (ip := ip);
        [apply Hprobe | exact Hne | exact Hp]. }
    split; [congruence | split; [exact Hl | split; [reflexivity | congruence]]].
  - eexists. split.
    { apply step_Tick. apply checkAndUpdate_new; [apply Hprobe | exact Hne | exact Hp]. }
    split; [reflexivity | split; [exact Hl | split; [congruence|]]].
    intros _. split; [reflexivity|].
    apply (started_new_scheduled (withPending ip (logged _ w))).
Qed.

Lemma unconfirmed_poll_makes_pending_witness :
  lastKnownIP (svc firstDetection) = ""
  /\ probes lookC "2001:db8::3"
  /\ exists w',
      step firstDetection (Tick lookC) = Some (Running w')
      /\ pendingIP (svc w') = "2001:db8::3".
Proof.
  assert (Hprobe : probes lookC "2001:db8::3") by (intros w; reflexivity).
  split; [reflexivity | split; [exact Hprobe|]].
  destruct (unconfirmed_poll_makes_pending firstDetection lookC "2001:db8::3" eq_refl Hprobe)
    as (w' & H1 & H2 & _).
  exists w'. auto.
Defined.

(** The startup lookup is one GET for the AAAA records of the configured
    name, with the bearer token and no body, unless the request cannot be
    built.  It seeds [recordID] and [lastKnownIP] only from a response with
    [success] set and at least one record; every failure, also a response
    that lists records but has [success] unset, returns an error and leaves
    the service as it was. *)
Theorem fetchRecordID_seeds_only_on_success
    (o : HttpOutcome (list DNSRecord.t)) (w : World) :
  exists w',
    fetchRecordID o w = Val (fetchError o) w'
    /\ timers w' = timers w
    /\ config (svc w') = config (svc w)
    /\ pendingIP (svc w') = pendingIP (svc w)
    /\ httpRequests (trace w')
       = (httpRequests (trace w) ++
            match o with
            | NewRequestError => []
            | _ => [{| Method := "GET";
                       URL := apiBase +:+ ZoneID (CloudFlare (config (svc w)))
                              +:+ "/dns_records?type=AAAA&name="
                              +:+ RecordName (CloudFlare (config (svc w)));
                       Authorization := "Bearer " +:+ APIToken (CloudFlare (config (svc w)));
                       ContentType := "application/json";
                       ReqBody := None |}]
            end)%list
    /\ (fetchError o <> None ->
        lastKnownIP (svc w') = lastKnownIP (svc w) /\ recordID (svc w') = recordID (svc w))
    /\ (forall errors, o = Response true errors [] ->
        lastKnownIP (svc w') = lastKnownIP (svc w) /\ recordID (svc w') = recordID (svc w))
    /\ (forall errors r0 rest, o = Response true errors (r0 :: rest) ->
        lastKnownIP (svc w') = DNSRecord.Content r0 /\ recordID (svc w') = DNSRecord.ID r0).
Proof.
  exists (fetched o w). split; [apply fetchRecordID_eq|].
  split; [reflexivity | split; [reflexivity | split; [reflexivity|]]].
  split.
  { cbn. rewrite httpRequests_app. f_equal.
    destruct o as [| | | |[] errors [|r0 rs]]; reflexivity. }
  split; [|split].
  - destruct o as [| | | |[] errors [|r0 rs]]; cbn; intros H;
      first [split; reflexivity | congruence].
  - intros errors ->. split; reflexivity.
  - intros errors r0 rest ->. split; reflexivity.
Qed.
